(** * Kanban task service: a shallow embedding of the Express backend
      ([src/backend/server.js]) and of the task handlers and the
      notification logic of the React client ([frontend/src/App.js]), with
      the properties of the accounts, of the task lifecycle and of the board
      stated over them.

    Conventions of the embedding.
    - A JavaScript string is the list of its UTF-16 code units ([jsstring]).
      Literals of the source that are compared or stored (['todo'],
      ['medium'], ...) are written [js "todo"].  The French messages of the
      responses are only ever compared for equality and are kept as Rocq
      strings, byte for byte as in the source.
    - A value of a JSON request body is a [jsval]; [undefined] stands for an
      absent member.
    - Instants are integers (milliseconds), [NOW()] and [CURRENT_TIMESTAMP]
      are the [now] argument of a route.
    - The PostgreSQL tables are lists of rows in table order; every call of
      [pool.query] is recorded in the [log] of the database state, so that
      "no query was issued" can be stated.
    - The [:id] segment of a path is the integer PostgreSQL reads from it;
      a segment that is no integer fails the statement and is not modelled,
      nor is a connection that fails.
    - What belongs to the platform (jsonwebtoken, bcryptjs, the [Date]
      constructor, the text node-postgres binds for a non-string parameter,
      PostgreSQL's timestamp input) is a variable of the section. *)

From Stdlib Require Import String Ascii QArith_base.
From stdpp Require Import base numbers option sorting list.

Local Open Scope Z_scope.
Set Warnings "-register-all".

(** ** JavaScript values *)

Abbreviation jsstring := (list N).

(** The code units of an ASCII literal. *)
Definition js (s : string) : jsstring :=
  N_of_ascii <$> list_ascii_of_string s.

Inductive jsval : Type :=
  | JUndef
  | JNull
  | JBool (b : bool)
  | JNum (q : Q)
  | JStr (s : jsstring)
  | JArr (l : list jsval)
  | JObj (l : list (jsstring * jsval)).

(** ToBoolean: what [!v], [v && e], [v || e] and [if (v)] test.  A number
    read from JSON is never NaN. *)
Definition truthy (v : jsval) : bool :=
  match v with
  | JUndef | JNull => false
  | JBool b => b
  | JNum q => negb (Qnum q =? 0)
  | JStr s => negb (bool_decide (s = []))
  | JArr _ | JObj _ => true
  end.

(** [v || d] *)
Definition js_or (v d : jsval) : jsval := if truthy v then v else d.

(** [l.includes(v)] for an array [l] of string literals: SameValueZero
    never identifies a string with a value of another type. *)
Definition includes (l : list jsstring) (v : jsval) : bool :=
  match v with
  | JStr s => bool_decide (s ∈ l)
  | _ => false
  end.

(** The code units [String.prototype.trim] strips: WhiteSpace (TAB, VT, FF,
    SP, NBSP, ZWNBSP and the category Zs) and LineTerminator. *)
Definition is_ws (c : N) : bool :=
  bool_decide (c ∈ [9; 10; 11; 12; 13; 32; 160; 5760; 8192; 8193; 8194; 8195;
                    8196; 8197; 8198; 8199; 8200; 8201; 8202; 8232; 8233;
                    8239; 8287; 12288; 65279]%N).

Fixpoint trimStart (s : jsstring) : jsstring :=
  match s with
  | [] => []
  | c :: s' => if is_ws c then trimStart s' else s
  end.

Fixpoint trimEnd (s : jsstring) : jsstring :=
  match s with
  | [] => []
  | c :: s' =>
      match trimEnd s' with
      | [] => if is_ws c then [] else [c]
      | t => c :: t
      end
  end.

Definition trim (s : jsstring) : jsstring := trimEnd (trimStart s).

(** [v.trim()]: [None] is the TypeError of calling a method that a
    non-string value does not have ("v.trim is not a function"). *)
Definition call_trim (v : jsval) : option jsstring :=
  match v with
  | JStr s => Some (trim s)
  | _ => None
  end.

(** [s.split(c)] for a one-character separator. *)
Fixpoint split_on (c : N) (s : jsstring) : list jsstring :=
  match s with
  | [] => [[]]
  | x :: s' =>
      if bool_decide (x = c) then [] :: split_on c s'
      else match split_on c s' with
           | [] => [[x]]
           | w :: ws => (x :: w) :: ws
           end
  end.

(** ** The backend: [src/backend/server.js] *)

Module Server.

(** *** Tables

    Rows of [users(id, email, password_hash)] and of
    [tasks(id, title, description, user_id, status, due_date, reminder_date,
    priority, is_reminder_sent, created_at, updated_at)].  A nullable
    timestamp is an [option]. *)

Record user : Type := {
  users_id : Z;
  email : jsstring;
  password_hash : jsstring
}.

Record task : Type := {
  id : Z;
  title : jsstring;
  description : jsstring;
  user_id : Z;
  status : jsstring;
  due_date : option Z;
  reminder_date : option Z;
  priority : jsstring;
  is_reminder_sent : bool;
  created_at : Z;
  updated_at : Z
}.

(** The statements the routes send to [pool.query]. *)
Inductive query : Type :=
  | QSelectUser          (* SELECT * FROM users WHERE email = $1 *)
  | QSelectTasks         (* SELECT * FROM tasks WHERE user_id = $1 ... *)
  | QInsertTask          (* INSERT INTO tasks ... RETURNING * *)
  | QSelectTask          (* SELECT * FROM tasks WHERE id = $1 AND user_id = $2 *)
  | QUpdateTask          (* UPDATE tasks SET title = $1, ... RETURNING * *)
  | QDeleteTask          (* DELETE FROM tasks WHERE id = $1 AND user_id = $2 *)
  | QSelectDueSoon       (* SELECT ... due_date <= NOW() + INTERVAL '24 hours' ... *)
  | QSelectReminders     (* SELECT ... reminder_date <= NOW() ... *)
  | QMarkReminderSent.   (* UPDATE tasks SET is_reminder_sent = true ... *)

Record db : Type := {
  users : list user;
  tasks : list task;
  tasks_id_seq : Z;
  log : list query
}.

Definition logged (q : query) (d : db) : db :=
  {| users := users d; tasks := tasks d;
     tasks_id_seq := tasks_id_seq d; log := log d ++ [q] |}.

Definition with_tasks (ts : list task) (d : db) : db :=
  {| users := users d; tasks := ts;
     tasks_id_seq := tasks_id_seq d; log := log d |}.

Definition nextval (d : db) : db :=
  {| users := users d; tasks := tasks d;
     tasks_id_seq := tasks_id_seq d + 1; log := log d |}.

(** *** Requests and responses *)

(** The members of [req.body] that the task routes destructure. *)
Record task_body : Type := {
  b_title : jsval;
  b_description : jsval;
  b_status : jsval;
  b_due_date : jsval;
  b_reminder_date : jsval;
  b_priority : jsval
}.

(** The object [jwt.sign] signs and [jwt.verify] gives back as [req.user]. *)
Record jwt_payload : Type := {
  payload_id : Z;
  payload_email : jsstring
}.

Inductive body : Type :=
  | StatusText                          (* res.sendStatus(c) *)
  | Empty                               (* res.send() *)
  | Text (s : string)                   (* res.send(s) *)
  | Msg (msg : string)                  (* res.json({ msg }) *)
  | Row (t : task)                      (* res.json(rows[0]) *)
  | Rows (ts : list task)               (* res.json(rows) *)
  | Session (token : jsstring) (u : jwt_payload).

Record response : Type := { code : Z; content : body }.

(** What a handler does with a request: it sends a response, or an
    exception leaves it before any response is sent (the asynchronous
    handler rejects). *)
Inductive outcome : Type :=
  | Sent (r : response)
  | Unhandled.

Definition json (c : Z) (b : body) : outcome := Sent {| code := c; content := b |}.

(** [res.status(404).json({ msg: "Tâche non trouvée ou non autorisée." })] *)
Definition not_found : outcome :=
  json 404 (Msg "Tâche non trouvée ou non autorisée.").

(** *** Row orders and row filters *)

(** [ORDER BY c ASC] on a nullable column: NULLs come last. *)
Definition asc_nulls_last (x y : option Z) : Prop :=
  match x, y with
  | Some a, Some b => a ≤ b
  | _, None => True
  | None, Some _ => False
  end.

#[global] Instance asc_nulls_last_dec x y : Decision (asc_nulls_last x y).
Proof. destruct x, y; simpl; apply _. Defined.

Definition by_id : relation task := λ a b, id a ≤ id b.
Definition by_due_date : relation task :=
  λ a b, asc_nulls_last (due_date a) (due_date b).
Definition by_reminder_date : relation task :=
  λ a b, asc_nulls_last (reminder_date a) (reminder_date b).

#[global] Instance by_id_dec a b : Decision (by_id a b).
Proof. unfold by_id; apply _. Defined.
#[global] Instance by_due_date_dec a b : Decision (by_due_date a b).
Proof. unfold by_due_date; apply _. Defined.
#[global] Instance by_reminder_date_dec a b : Decision (by_reminder_date a b).
Proof. unfold by_reminder_date; apply _. Defined.

(** [c <= bound] on a nullable column: not true of NULL. *)
Definition at_most (bound : Z) (c : option Z) : Prop :=
  match c with
  | Some x => x ≤ bound
  | None => False
  end.

#[global] Instance at_most_dec bound c : Decision (at_most bound c).
Proof. destruct c; simpl; apply _. Defined.

(** [WHERE id = $1 AND user_id = $2] *)
Definition owned_row (i uid : Z) (t : task) : Prop := id t = i ∧ user_id t = uid.

#[global] Instance owned_row_dec i uid t : Decision (owned_row i uid t).
Proof. unfold owned_row; apply _. Defined.

(** [INTERVAL '24 hours'] *)
Definition hours24 : Z := 24 * 60 * 60 * 1000.

(** The WHERE clause of the due-soon query. *)
Definition due_soon_row (uid now : Z) (t : task) : Prop :=
  user_id t = uid ∧ due_date t ≠ None ∧ at_most (now + hours24) (due_date t)
  ∧ status t ≠ js "done".

#[global] Instance due_soon_row_dec uid now t : Decision (due_soon_row uid now t).
Proof. unfold due_soon_row; apply _. Defined.

(** The WHERE clause of the reminders query. *)
Definition reminder_row (uid now : Z) (t : task) : Prop :=
  user_id t = uid ∧ reminder_date t ≠ None ∧ at_most now (reminder_date t)
  ∧ is_reminder_sent t = false ∧ status t ≠ js "done".

#[global] Instance reminder_row_dec uid now t : Decision (reminder_row uid now t).
Proof. unfold reminder_row; apply _. Defined.

(** *** Schema defaults

    The CREATE TABLE statements are not part of the sources. *)

(** Modelled from the spec: the column default of [is_reminder_sent], which
    the INSERT of the create route does not list ("reminder-sent flag
    (boolean, default false)"). *)
Definition default_is_reminder_sent : bool := false.

(** Modelled from the spec: the column defaults of [created_at] and
    [updated_at] ("creation timestamp, last-update timestamp"), both the
    time of the INSERT. *)
Definition default_timestamp (now : Z) : Z := now.

(** Modelled from the spec: the text columns [title], [description],
    [status] and [priority] are NOT NULL ("title (non-empty text)",
    "description (text, default empty)", the two enumerations).  The values
    a statement writes in them, or [None] when it would write a NULL and
    PostgreSQL raises the violation. *)
Definition text_columns (p_title p_description p_status p_priority
    : option jsstring) : option (jsstring * jsstring * jsstring * jsstring) :=
  ti ← p_title; de ← p_description; st ← p_status; pr ← p_priority;
  Some (ti, de, st, pr).

Section Platform.

(** [jwt.verify(token, JWT_SECRET, cb)]: the payload, or [None] when [cb]
    receives an error. *)
Variable jwt_verify : jsstring → option jwt_payload.
(** [jwt.sign(payload, JWT_SECRET, { expiresIn: '1h' })] *)
Variable jwt_sign : jwt_payload → jsstring.
(** [bcrypt.compare(password, hash)] on two strings. *)
Variable bcrypt_compare : jsstring → jsstring → bool.
(** [new Date(v).getTime()], [None] for NaN. *)
Variable Date_getTime : jsval → option Z.
(** The text node-postgres binds for a parameter that is neither a string
    nor null/undefined. *)
Variable pg_text : jsval → jsstring.
(** The instant PostgreSQL reads from a non-null parameter bound to a
    timestamp column, [None] when it rejects the input. *)
Variable pg_timestamp : jsval → option Z.

(** A parameter bound to a text column; [None] is SQL NULL. *)
Definition bind_text (v : jsval) : option jsstring :=
  match v with
  | JUndef | JNull => None
  | JStr s => Some s
  | _ => Some (pg_text v)
  end.

(** A parameter bound to a timestamp column: [None] is an input error
    raised by the statement, [Some None] is SQL NULL. *)
Definition bind_timestamp (v : jsval) : option (option Z) :=
  match v with
  | JUndef | JNull => Some None
  | _ => Some <$> pg_timestamp v
  end.

(** **** Middleware [authenticateToken] *)

(** [authHeader && authHeader.split(' ')[1]]; [None] is [undefined]. *)
Definition bearer_token (authorization : option jsstring) : option jsstring :=
  match authorization with
  | None => None
  | Some h => if truthy (JStr h) then split_on 32%N h !! 1%nat else Some h
  end.

Definition authenticateToken (authorization : option jsstring)
  : response + jwt_payload :=
  match bearer_token authorization with
  | None => inl {| code := 401; content := StatusText |}
  | Some token =>
      match jwt_verify token with
      | None => inl {| code := 403; content := StatusText |}
      | Some u => inr u
      end
  end.

(** **** POST /api/auth/login *)

(** [SELECT * FROM users WHERE email = $1]: no row equals NULL. *)
Definition select_user (p_email : option jsstring) (d : db) : list user :=
  match p_email with
  | None => []
  | Some e => filter (λ u, email u = e) (users d)
  end.

Definition login (b_email b_password : jsval) (d : db) : outcome * db :=
  let d := logged QSelectUser d in
  match select_user (bind_text b_email) d with
  | [] => (json 400 (Msg "Email ou mot de passe incorrect."), d)
  | user :: _ =>
      match b_password with
      | JStr password =>
          if negb (bcrypt_compare password (password_hash user))
          then (json 400 (Msg "Email ou mot de passe incorrect."), d)
          else
            let payload := {| payload_id := users_id user;
                              payload_email := email user |} in
            (json 200 (Session (jwt_sign payload) payload), d)
      | _ =>
          (* bcryptjs throws on a non-string argument: the catch block *)
          (json 500 (Text "Erreur serveur"), d)
      end
  end.

(** **** GET /api/tasks *)

Definition listTasks (u : jwt_payload) (d : db) : outcome * db :=
  let d := logged QSelectTasks d in
  let userTasks :=
    merge_sort by_id (filter (λ t, user_id t = payload_id u) (tasks d)) in
  (json 200 (Rows userTasks), d).

(** **** POST /api/tasks *)

(** [INSERT INTO tasks (title, description, user_id, status, due_date,
    reminder_date, priority) VALUES ($1, $2, $3, 'todo', $4, $5, $6)
    RETURNING *]: the row returned, or [None] when the statement fails.
    A parameter that PostgreSQL cannot read as a timestamp fails it before
    a row is formed; a row rejected by a constraint has already drawn its
    identifier from the sequence. *)
Definition insert_task (p_title p_description : option jsstring) (uid : Z)
    (p_due p_reminder : option (option Z)) (p_priority : option jsstring)
    (now : Z) (d : db) : option task * db :=
  let d := logged QInsertTask d in
  match p_due, p_reminder with
  | Some due, Some reminder =>
      let fresh := tasks_id_seq d in
      let d := nextval d in
      match text_columns p_title p_description (Some (js "todo")) p_priority with
      | Some (ti, de, st, pr) =>
          let row := {| id := fresh; title := ti; description := de;
                        user_id := uid; status := st;
                        due_date := due; reminder_date := reminder;
                        priority := pr;
                        is_reminder_sent := default_is_reminder_sent;
                        created_at := default_timestamp now;
                        updated_at := default_timestamp now |} in
          (Some row, with_tasks (tasks d ++ [row]) d)
      | None => (None, d)
      end
  | _, _ => (None, d)
  end.

Definition createTask (u : jwt_payload) (now : Z) (b : task_body) (d : db)
  : outcome * db :=
  match insert_task (bind_text (b_title b))
          (bind_text (js_or (b_description b) (JStr [])))
          (payload_id u)
          (bind_timestamp (js_or (b_due_date b) JNull))
          (bind_timestamp (js_or (b_reminder_date b) JNull))
          (bind_text (js_or (b_priority b) (JStr (js "medium"))))
          now d with
  | (Some row, d) => (json 201 (Row row), d)
  | (None, d) =>
      (json 500 (Msg "Erreur serveur lors de la création de la tâche"), d)
  end.

(** **** PUT /api/tasks/:id *)

(** [let parsed = null; if (v) { parsed = new Date(v); if
    (isNaN(parsed.getTime())) return 400 }]: [None] is the 400. *)
Definition parse_date (v : jsval) : option (option Z) :=
  if truthy v then Some <$> Date_getTime v else Some None.

(** The row the SET clause of the PUT route makes of [t]. *)
Definition write_task (ti de st : jsstring) (due reminder : option Z)
    (pr : jsstring) (now : Z) (t : task) : task :=
  {| id := id t; title := ti; description := de;
     user_id := user_id t; status := st;
     due_date := due; reminder_date := reminder; priority := pr;
     is_reminder_sent := is_reminder_sent t;
     created_at := created_at t; updated_at := now |}.

(** The same from bound parameters, [None] when the row is rejected. *)
Definition set_task (p_title p_description p_status : option jsstring)
    (due reminder : option Z) (p_priority : option jsstring) (now : Z)
    (t : task) : option task :=
  '(ti, de, st, pr) ← text_columns p_title p_description p_status p_priority;
  Some (write_task ti de st due reminder pr now t).

(** [UPDATE tasks SET title = $1, description = $2, status = $3,
    due_date = $4, reminder_date = $5, priority = $6,
    updated_at = CURRENT_TIMESTAMP WHERE id = $7 AND user_id = $8
    RETURNING *]: the rows returned, or [None] when the statement fails. *)
Definition update_task (p_title p_description p_status : option jsstring)
    (due reminder : option Z) (p_priority : option jsstring)
    (now i uid : Z) (d : db) : option (list task) * db :=
  let d := logged QUpdateTask d in
  match mapM (λ t, if decide (owned_row i uid t)
                   then set_task p_title p_description p_status
                                 due reminder p_priority now t
                   else Some t) (tasks d) with
  | Some ts => (Some (filter (owned_row i uid) ts), with_tasks ts d)
  | None => (None, d)
  end.

(** The validation block at the head of the handler ("Validation des
    données reçues", "Validation des dates"), which runs before the [try]:
    the message of the 400 it answers, the TypeError that escapes it, or
    what it leaves in [title.trim()], [parsedDueDate] and
    [parsedReminderDate]. *)
Inductive validation : Type :=
  | Rejected (msg : string)
  | Raised
  | Accepted (trimmed : jsstring) (parsedDueDate parsedReminderDate : option Z).

Definition validate (b : task_body) : validation :=
  if negb (truthy (b_title b)) then Rejected "Le titre est requis."
  else
  match call_trim (b_title b) with
  | None => Raised
  | Some trimmed =>
  if negb (truthy (JStr trimmed)) then Rejected "Le titre est requis."
  else
  if negb (truthy (b_status b))
     || negb (includes [js "todo"; js "in-progress"; js "done"] (b_status b))
  then Rejected "Statut invalide."
  else
  if truthy (b_priority b)
     && negb (includes [js "low"; js "medium"; js "high"] (b_priority b))
  then Rejected "Priorité invalide."
  else
  match parse_date (b_due_date b) with
  | None => Rejected "Date d'échéance invalide."
  | Some parsedDueDate =>
  match parse_date (b_reminder_date b) with
  | None => Rejected "Date de rappel invalide."
  | Some parsedReminderDate =>
      Accepted trimmed parsedDueDate parsedReminderDate
  end
  end
  end.

Definition updateTask (u : jwt_payload) (now i : Z) (b : task_body) (d : db)
  : outcome * db :=
  match validate b with
  | Rejected msg => (json 400 (Msg msg), d)
  | Raised => (Unhandled, d)
  | Accepted trimmed parsedDueDate parsedReminderDate =>
      let d := logged QSelectTask d in
      match filter (owned_row i (payload_id u)) (tasks d) with
      | [] => (not_found, d)
      | _ :: _ =>
          match update_task (Some trimmed)
                  (bind_text (js_or (b_description b) (JStr [])))
                  (bind_text (b_status b))
                  parsedDueDate parsedReminderDate
                  (bind_text (js_or (b_priority b) (JStr (js "medium"))))
                  now i (payload_id u) d with
          | (Some [], d) =>
              (not_found, d)
          | (Some (row :: _), d) => (json 200 (Row row), d)
          | (None, d) =>
              (json 500
                 (Msg "Erreur serveur lors de la mise à jour de la tâche"), d)
          end
      end
  end.

(** **** DELETE /api/tasks/:id *)

Definition deleteTask (u : jwt_payload) (i : Z) (d : db) : outcome * db :=
  let d := logged QDeleteTask d in
  let rowCount := List.length (filter (owned_row i (payload_id u)) (tasks d)) in
  let d := with_tasks
             (filter (λ t, ¬ owned_row i (payload_id u) t) (tasks d)) d in
  if bool_decide (rowCount = 0%nat)
  then (not_found, d)
  else (json 204 Empty, d).

(** **** GET /api/tasks/due-soon *)

Definition listDueSoon (u : jwt_payload) (now : Z) (d : db) : outcome * db :=
  let d := logged QSelectDueSoon d in
  let dueSoonTasks :=
    merge_sort by_due_date
      (filter (due_soon_row (payload_id u) now) (tasks d)) in
  (json 200 (Rows dueSoonTasks), d).

(** **** GET /api/tasks/reminders *)

Definition listReminders (u : jwt_payload) (now : Z) (d : db) : outcome * db :=
  let d := logged QSelectReminders d in
  let reminderTasks :=
    merge_sort by_reminder_date
      (filter (reminder_row (payload_id u) now) (tasks d)) in
  (json 200 (Rows reminderTasks), d).

(** **** POST /api/tasks/:id/mark-reminder-sent *)

Definition set_reminder_sent (t : task) : task :=
  {| id := id t; title := title t; description := description t;
     user_id := user_id t; status := status t;
     due_date := due_date t; reminder_date := reminder_date t;
     priority := priority t; is_reminder_sent := true;
     created_at := created_at t; updated_at := updated_at t |}.

(** [UPDATE tasks SET is_reminder_sent = true WHERE id = $1 AND
    user_id = $2] on one row. *)
Definition mark_row (i uid : Z) (t : task) : task :=
  if decide (owned_row i uid t) then set_reminder_sent t else t.

Definition markReminderSent (u : jwt_payload) (i : Z) (d : db)
  : outcome * db :=
  let d := logged QMarkReminderSent d in
  let ts := mark_row i (payload_id u) <$> tasks d in
  let d := with_tasks ts d in
  match filter (owned_row i (payload_id u)) ts with
  | [] => (not_found, d)
  | row :: _ => (json 200 (Row row), d)
  end.

(** **** Routes: [app.METHOD(path, authenticateToken, handler)] *)

Definition protected (authorization : option jsstring)
    (handler : jwt_payload → db → outcome * db) (d : db) : outcome * db :=
  match authenticateToken authorization with
  | inl r => (Sent r, d)
  | inr u => handler u d
  end.

Definition GET_tasks authorization :=
  protected authorization listTasks.
Definition POST_tasks authorization now b :=
  protected authorization (λ u, createTask u now b).
Definition PUT_task authorization now i b :=
  protected authorization (λ u, updateTask u now i b).
Definition DELETE_task authorization i :=
  protected authorization (λ u, deleteTask u i).
Definition GET_due_soon authorization now :=
  protected authorization (λ u, listDueSoon u now).
Definition GET_reminders authorization now :=
  protected authorization (λ u, listReminders u now).
Definition POST_mark_reminder_sent authorization i :=
  protected authorization (λ u, markReminderSent u i).

End Platform.

End Server.

(** ** The client's notifications: [frontend/src/App.js]

    The client holds the rows it fetched; a date member of a row is an ISO
    string or null and is read through [new Date], here the instant or
    [None].  Each [new Date()] of one pass reads the same [now]. *)

Module App.

Inductive ntype : Type :=
  | reminder     (* 'reminder' *)
  | overdue      (* 'overdue' *)
  | due_soon.    (* 'due-soon' *)

#[global] Instance ntype_eq_dec : EqDecision ntype.
Proof. solve_decision. Defined.

Record notification : Type := {
  id : Z;
  message : jsstring;
  type : ntype
}.

Definition isOverdue (now : Z) (dueDate : option Z) : bool :=
  match dueDate with
  | None => false
  | Some due => bool_decide (due < now)
  end.

(** [diffHours = (due - now) / (1000 * 60 * 60)], then
    [diffHours > 0 && diffHours <= 24]; the comparisons are stated on the
    difference itself. *)
Definition isDueSoon (now : Z) (dueDate : option Z) : bool :=
  match dueDate with
  | None => false
  | Some due =>
      bool_decide (0 < due - now) && bool_decide (due - now ≤ 24 * (1000 * 60 * 60))
  end.

(** What one task pushes on [newNotifications] in the [forEach] of
    [checkReminders]. *)
Definition pushed (now : Z) (task : Server.task) : list notification :=
  (match Server.reminder_date task with
   | Some reminderTime =>
       if negb (Server.is_reminder_sent task)
          && negb (bool_decide (Server.status task = js "done"))
          && bool_decide (reminderTime ≤ now)
       then [{| id := Server.id task;
                message := js "Rappel: " ++ Server.title task;
                type := reminder |}]
       else []
   | None => []
   end)
  ++
  (if bool_decide (Server.due_date task ≠ None)
      && negb (bool_decide (Server.status task = js "done"))
   then
     if isOverdue now (Server.due_date task)
     then [{| id := Server.id task;
              message := js "En retard: " ++ Server.title task;
              type := overdue |}]
     else if isDueSoon now (Server.due_date task)
     then [{| id := Server.id task;
              (* "Échéance proche: " *)
              message := [201%N] ++ js "ch" ++ [233%N] ++ js "ance proche: "
                         ++ Server.title task;
              type := due_soon |}]
     else []
   else []).

(** [checkReminders(currentTasks)] as a function of the notification state
    it updates through [setNotifications(prev => [...prev, ...new])]. *)
Definition checkReminders (now : Z) (currentTasks : list Server.task)
    (notifications : list notification) : list notification :=
  let newNotifications := currentTasks ≫= pushed now in
  if bool_decide (0 < List.length newNotifications)%nat
  then notifications ++ newNotifications
  else notifications.

(** [setNotifications(prev => prev.filter(n => n.id !== notificationId))] *)
Definition dismissNotification (notificationId : Z)
    (notifications : list notification) : list notification :=
  filter (λ n, id n ≠ notificationId) notifications.

(** The card rendered for a notification carries
    [key={`${notification.id}-${notification.type}`}] and
    [onDismiss={() => dismissNotification(notification.id)}]. *)
Definition card_key (n : notification) : Z * ntype := (id n, type n).
Definition onDismiss (n : notification) : list notification → list notification :=
  dismissNotification (id n).

End App.

(** ** POST /api/auth/register

    The statement of this route is not one of [Server.query]; the state it
    runs on adds to the store the sequence of [users.id] and the number of
    INSERT statements sent to [users]. *)

Module Register.

Record accounts : Type := {
  store : Server.db;
  users_id_seq : Z;
  inserts : nat
}.

(** What the route answers: the row of [RETURNING id, email] with a 201, or
    an error response. *)
Inductive answer : Type :=
  | Created (id : Z) (email : jsstring)
  | Refused (r : Server.response).

(** Modelled from the spec: [users.email] is unique ("email (unique)"; the
    catch block of the route names the case: "Erreur serveur ou l'email
    existe déjà.").  Whether a row with this email is there already. *)
Definition email_taken (e : jsstring) (us : list Server.user) : bool :=
  bool_decide (e ∈ Server.email <$> us).

Section Platform.

(** [bcrypt.hash(password, salt)] on two strings. *)
Variable bcrypt_hash : jsstring → jsstring → jsstring.
Variable pg_text : jsval → jsstring.

Definition server_error : answer :=
Refused {| Server.code := 500;
           Server.content :=
             Server.Msg "Erreur serveur ou l'email existe déjà." |}.

(** [INSERT INTO users (email, password_hash) VALUES ($1, $2) RETURNING id,
  email]: a row rejected by a constraint has drawn its identifier. *)
Definition insert_user (p_email : option jsstring) (password_hash : jsstring)
  (a : accounts) : option (Z * jsstring) * accounts :=
let d := store a in
let fresh := users_id_seq a in
match p_email with
| Some e =>
    if email_taken e (Server.users d)
    then (None, {| store := d; users_id_seq := fresh + 1;
                   inserts := S (inserts a) |})
    else
      let row := {| Server.users_id := fresh; Server.email := e;
                    Server.password_hash := password_hash |} in
      (Some (fresh, e),
       {| store := {| Server.users := Server.users d ++ [row];
                      Server.tasks := Server.tasks d;
                      Server.tasks_id_seq := Server.tasks_id_seq d;
                      Server.log := Server.log d |};
          users_id_seq := fresh + 1; inserts := S (inserts a) |})
| None =>
    (None, {| store := d; users_id_seq := fresh + 1;
              inserts := S (inserts a) |})
end.

(** The handler; [salt] is what [bcrypt.genSalt(10)] drew. *)
Definition register (salt : jsstring) (b_email b_password : jsval)
  (a : accounts) : answer * accounts :=
if negb (truthy b_email) || negb (truthy b_password)
then (Refused {| Server.code := 400;
                 Server.content :=
                   Server.Msg "Email et mot de passe requis." |}, a)
else
  match b_password with
  | JStr password =>
      let password_hash := bcrypt_hash password salt in
      match insert_user (Server.bind_text pg_text b_email) password_hash a with
      | (Some (i, e), a) => (Created i e, a)
      | (None, a) => (server_error, a)
      end
  | _ =>
      (* bcryptjs throws on a non-string argument: the catch block *)
      (server_error, a)
  end.

End Platform.

End Register.

(** ** The routing table of the task routes

    A request is the route it matches with what the handler reads from it;
    [run] handles requests one after the other, each at its own time. *)

Module Router.

Inductive request : Type :=
  | GetTasks (authorization : option jsstring)
  | PostTasks (authorization : option jsstring) (b : Server.task_body)
  | PutTask (authorization : option jsstring) (i : Z) (b : Server.task_body)
  | DeleteTask (authorization : option jsstring) (i : Z)
  | GetDueSoon (authorization : option jsstring)
  | GetReminders (authorization : option jsstring)
  | PostMarkReminderSent (authorization : option jsstring) (i : Z).

Definition authorization_of (r : request) : option jsstring :=
  match r with
  | GetTasks a | PostTasks a _ | PutTask a _ _ | DeleteTask a _
  | GetDueSoon a | GetReminders a | PostMarkReminderSent a _ => a
  end.

Section Platform.

Variable jwt_verify : jsstring → option Server.jwt_payload.
Variable Date_getTime : jsval → option Z.
Variable pg_text : jsval → jsstring.
Variable pg_timestamp : jsval → option Z.

Definition dispatch (now : Z) (r : request) (d : Server.db)
: Server.outcome * Server.db :=
match r with
| GetTasks a => Server.GET_tasks jwt_verify a d
| PostTasks a b => Server.POST_tasks jwt_verify pg_text pg_timestamp a now b d
| PutTask a i b => Server.PUT_task jwt_verify Date_getTime pg_text a now i b d
| DeleteTask a i => Server.DELETE_task jwt_verify a i d
| GetDueSoon a => Server.GET_due_soon jwt_verify a now d
| GetReminders a => Server.GET_reminders jwt_verify a now d
| PostMarkReminderSent a i => Server.POST_mark_reminder_sent jwt_verify a i d
end.

Fixpoint run (rs : list (Z * request)) (d : Server.db) : Server.db :=
match rs with
| [] => d
| (now, r) :: rs => run rs (dispatch now r d).2
end.

End Platform.

End Router.

(** ** The client's task state: [frontend/src/App.js]

    The handlers of the board as functions of the [tasks] state and of the
    store of the backend they call through [apiCall]. *)

Module Client.

(** The three columns: [tasks.filter(t => t.status === s)]. *)
Definition column (s : jsstring) (tasks : list Server.task) : list Server.task :=
  filter (λ t, Server.status t = s) tasks.

Definition todoTasks := column (js "todo").
Definition inProgressTasks := column (js "in-progress").
Definition doneTasks := column (js "done").

(** The header [apiCall] sets: [if (token)
    options.headers['Authorization'] = `Bearer ${token}`]. *)
Definition Authorization (token : jsstring) : option jsstring :=
  if truthy (JStr token) then Some (js "Bearer " ++ token) else None.

(** What [apiCall] returns: the parsed body of a response whose status is
    in 200..299; [None] when it throws ([!response.ok]) or no response
    comes. *)
Definition apiCall (o : Server.outcome) : option Server.body :=
  match o with
  | Server.Sent r =>
      if bool_decide (200 ≤ Server.code r ≤ 299)
      then Some (Server.content r) else None
  | Server.Unhandled => None
  end.

(** The state of the task form: the values of its inputs. *)
Record taskForm : Type := {
  f_title : jsstring;
  f_description : jsstring;
  f_due_date : jsstring;
  f_reminder_date : jsstring;
  f_priority : jsstring
}.

Section Platform.

Variable jwt_verify : jsstring → option Server.jwt_payload.
Variable Date_getTime : jsval → option Z.
Variable pg_text : jsval → jsstring.
Variable pg_timestamp : jsval → option Z.
(** [Date.prototype.toISOString], by which [res.json] writes a timestamp. *)
Variable toISOString : Z → jsstring.

(** A date member of a row as the client holds it. *)
Definition json_date (c : option Z) : jsval :=
match c with
| Some t => JStr (toISOString t)
| None => JNull
end.

(** The members of a row that the PUT handler reads when the row is sent
  back as a body ([{ ...task }]). *)
Definition body_of_task (t : Server.task) : Server.task_body :=
{| Server.b_title := JStr (Server.title t);
   Server.b_description := JStr (Server.description t);
   Server.b_status := JStr (Server.status t);
   Server.b_due_date := json_date (Server.due_date t);
   Server.b_reminder_date := json_date (Server.reminder_date t);
   Server.b_priority := JStr (Server.priority t) |}.

(** [{ ...b, status: s }] *)
Definition with_status (s : jsstring) (b : Server.task_body) : Server.task_body :=
{| Server.b_title := Server.b_title b;
   Server.b_description := Server.b_description b;
   Server.b_status := JStr s;
   Server.b_due_date := Server.b_due_date b;
   Server.b_reminder_date := Server.b_reminder_date b;
   Server.b_priority := Server.b_priority b |}.

(** [taskData]: the form with [due_date || null] and
  [reminder_date || null]. *)
Definition taskData (f : taskForm) (status : jsval) : Server.task_body :=
{| Server.b_title := JStr (f_title f);
   Server.b_description := JStr (f_description f);
   Server.b_status := status;
   Server.b_due_date := js_or (JStr (f_due_date f)) JNull;
   Server.b_reminder_date := js_or (JStr (f_reminder_date f)) JNull;
   Server.b_priority := JStr (f_priority f) |}.

(** [tasks.map(t => (t.id === i ? result : t))] *)
Definition replace_task (i : Z) (result : Server.task)
  (tasks : list Server.task) : list Server.task :=
(λ t, if decide (Server.id t = i) then result else t) <$> tasks.

(** The initial fetch: [setTasks(fetchedTasks)].  [None] is the catch
  block, which leaves [tasks] alone. *)
Definition fetchTasks (token : jsstring) (d : Server.db)
: option (list Server.task) * Server.db :=
let '(o, d) := Server.GET_tasks jwt_verify (Authorization token) d in
match apiCall o with
| Some (Server.Rows fetchedTasks) => (Some fetchedTasks, d)
| _ => (None, d)
end.

(** [handleDeleteTask(taskId)]; [confirmed] is the answer to
  [window.confirm]. *)
Definition handleDeleteTask (token : jsstring) (confirmed : bool) (taskId : Z)
  (tasks : list Server.task) (d : Server.db)
: list Server.task * Server.db :=
if confirmed then
  let '(o, d) := Server.DELETE_task jwt_verify (Authorization token) taskId d in
  match apiCall o with
  | Some _ => (filter (λ t, Server.id t ≠ taskId) tasks, d)
  | None => (tasks, d)
  end
else (tasks, d).

(** [handleDrop(e, newStatus)] with the [draggedTask] of the state.  A PUT
  answers 200 with a row only. *)
Definition handleDrop (token : jsstring) (now : Z)
  (draggedTask : option Server.task) (newStatus : jsstring)
  (tasks : list Server.task) (d : Server.db)
: list Server.task * Server.db :=
match draggedTask with
| None => (tasks, d)
| Some dragged =>
    if bool_decide (Server.status dragged = newStatus) then (tasks, d)
    else
      let '(o, d) :=
        Server.PUT_task jwt_verify Date_getTime pg_text
          (Authorization token) now (Server.id dragged)
          (with_status newStatus (body_of_task dragged)) d in
      match apiCall o with
      | Some (Server.Row updatedTask) =>
          (replace_task (Server.id dragged) updatedTask tasks, d)
      | _ => (tasks, d)
      end
end.

(** [handleTaskSubmit(e)] with the [taskForm] and the [editingTask] of the
  state: nothing is sent when the title of the form is blank; otherwise a
  PUT for the task being edited (the members of the form over those of
  the task), or a POST. *)
Definition handleTaskSubmit (token : jsstring) (now : Z) (f : taskForm)
  (editingTask : option Server.task)
  (tasks : list Server.task) (d : Server.db)
: list Server.task * Server.db :=
if negb (truthy (JStr (trim (f_title f)))) then (tasks, d)
else
  match editingTask with
  | Some editing =>
      let '(o, d) :=
        Server.PUT_task jwt_verify Date_getTime pg_text
          (Authorization token) now (Server.id editing)
          (taskData f (JStr (Server.status editing))) d in
      match apiCall o with
      | Some (Server.Row result) =>
          (replace_task (Server.id editing) result tasks, d)
      | _ => (tasks, d)
      end
  | None =>
      let '(o, d) :=
        Server.POST_tasks jwt_verify pg_text pg_timestamp
          (Authorization token) now (taskData f JUndef) d in
      match apiCall o with
      | Some (Server.Row result) => (tasks ++ [result], d)
      | _ => (tasks, d)
      end
  end.

End Platform.

End Client.

(** ** A platform and data to run the routes on

    Two users and stand-ins for the platform functions: the tokens of the
    two users verify, [new Date(n)] of an integer number of milliseconds in
    the range of a JavaScript date is that instant and every other value is
    an invalid date, PostgreSQL reads no timestamp from a text. *)

Module Sample.

Definition alice : Server.jwt_payload :=
  {| Server.payload_id := 1; Server.payload_email := js "alice@example.org" |}.
Definition bob : Server.jwt_payload :=
  {| Server.payload_id := 2; Server.payload_email := js "bob@example.org" |}.

Definition jwt_verify (token : jsstring) : option Server.jwt_payload :=
  if bool_decide (token = js "alice-token") then Some alice
  else if bool_decide (token = js "bob-token") then Some bob
  else None.

Definition jwt_sign (p : Server.jwt_payload) : jsstring :=
  if bool_decide (Server.payload_id p = 1) then js "alice-token"
  else js "bob-token".

Definition bcrypt_compare (password hash : jsstring) : bool :=
  bool_decide (js "hash of " ++ password = hash).

Definition Date_getTime (v : jsval) : option Z :=
  match v with
  | JNum q =>
      if bool_decide (Qden q = 1%positive)
         && bool_decide (- 8640000000000000 ≤ Qnum q ≤ 8640000000000000)
      then Some (Qnum q) else None
  | _ => None
  end.

Definition pg_text (v : jsval) : jsstring := js "[value]".

Definition pg_timestamp (v : jsval) : option Z := None.

(** A request body with the given title and status and nothing else. *)
Definition body_of (title status : jsval) : Server.task_body :=
  {| Server.b_title := title; Server.b_description := JUndef;
     Server.b_status := status; Server.b_due_date := JUndef;
     Server.b_reminder_date := JUndef; Server.b_priority := JUndef |}.

(** A row of alice: high priority, described, due at 5000 with a reminder
    at 4000, created at 10 and last updated at 20. *)
Definition alice_task : Server.task :=
  {| Server.id := 1; Server.title := js "Write spec";
     Server.description := js "first draft"; Server.user_id := 1;
     Server.status := js "todo"; Server.due_date := Some 5000;
     Server.reminder_date := Some 4000; Server.priority := js "high";
     Server.is_reminder_sent := false;
     Server.created_at := 10; Server.updated_at := 20 |}.

Definition store : Server.db :=
  {| Server.users :=
       [ {| Server.users_id := 1; Server.email := js "alice@example.org";
            Server.password_hash := js "hash of wonderland" |} ];
     Server.tasks := [alice_task];
     Server.tasks_id_seq := 2;
     Server.log := [] |}.

Definition empty_store : Server.db :=
  {| Server.users := []; Server.tasks := [];
     Server.tasks_id_seq := 1; Server.log := [] |}.

End Sample.

(** ** Further stand-ins for the platform

    A hash that [Sample.bcrypt_compare] accepts, and a writing of instants
    that a [Date] reads back (in unary, which is enough for the round trip
    the statements assume), over [Sample.Date_getTime]. *)

Module Demo.

Definition bcrypt_hash (password salt : jsstring) : jsstring :=
  js "hash of " ++ password.

Definition toISOString (t : Z) : jsstring := replicate (Z.to_nat t) 49%N.

Definition Date_getTime (v : jsval) : option Z :=
  match v with
  | JStr s => Some (Z.of_nat (length s))
  | _ => Sample.Date_getTime v
  end.

Definition no_accounts : Register.accounts :=
  {| Register.store := Sample.empty_store;
     Register.users_id_seq := 1; Register.inserts := 0 |}.

(** Alice has an account, under the identifier 1. *)
Definition registered : Register.accounts :=
  {| Register.store := Sample.store;
     Register.users_id_seq := 2; Register.inserts := 0 |}.

(** Registrations, each with the salt drawn for it: bob, then alice's
    email a second time, then carol, then bob's email a second time. *)
Definition signups : list (jsstring * jsval * jsval) :=
  [ (js "salt", JStr (js "bob@example.org"), JStr (js "builder"));
    (js "pepper", JStr (js "alice@example.org"), JStr (js "looking glass"));
    (js "sugar", JStr (js "carol@example.org"), JStr (js "rabbit hole"));
    (js "spice", JStr (js "bob@example.org"), JStr (js "other")) ].

(** A morning of alice and bob: each creates a task, alice moves hers to
    done and marks its reminder, bob tries to delete it and then lists. *)
Definition morning : list (Z * Router.request) :=
  [ (100, Router.PostTasks (Some (js "Bearer alice-token"))
            (Sample.body_of (JStr (js "Write spec")) JUndef));
    (200, Router.PostTasks (Some (js "Bearer bob-token"))
            (Sample.body_of (JStr (js "Review spec")) JUndef));
    (300, Router.PutTask (Some (js "Bearer alice-token")) 1
            (Sample.body_of (JStr (js "Write spec")) (JStr (js "done"))));
    (400, Router.PostMarkReminderSent (Some (js "Bearer alice-token")) 1);
    (500, Router.DeleteTask (Some (js "Bearer bob-token")) 1);
    (600, Router.GetTasks (Some (js "Bearer bob-token"))) ].

(** The store once alice's reminder has been marked as sent. *)
Definition reminded : Server.db :=
  (Server.markReminderSent Sample.alice 1 Sample.store).2.

(** A row of alice as the create route stores a title of spaces. *)
Definition blank_task : Server.task :=
  {| Server.id := 3; Server.title := js "   ";
     Server.description := []; Server.user_id := 1;
     Server.status := js "todo"; Server.due_date := None;
     Server.reminder_date := None; Server.priority := js "medium";
     Server.is_reminder_sent := false;
     Server.created_at := 30; Server.updated_at := 30 |}.

(** A second row of alice, with a reminder at 4500 that was not sent. *)
Definition second_task : Server.task :=
  {| Server.id := 2; Server.title := js "Review spec";
     Server.description := []; Server.user_id := 1;
     Server.status := js "in-progress"; Server.due_date := None;
     Server.reminder_date := Some 4500; Server.priority := js "low";
     Server.is_reminder_sent := false;
     Server.created_at := 15; Server.updated_at := 25 |}.

Definition two_tasks : Server.db :=
  {| Server.users := Server.users Sample.store;
     Server.tasks := [Sample.alice_task; second_task];
     Server.tasks_id_seq := 3; Server.log := [] |}.

(** The form filled in for a new task. *)
Definition form : Client.taskForm :=
  {| Client.f_title := js "Plan release"; Client.f_description := [];
     Client.f_due_date := []; Client.f_reminder_date := [];
     Client.f_priority := js "medium" |}.

End Demo.

(** ** Vocabulary of the statements *)

Module Spec.
Import Server.

Definition statuses : list jsstring := [js "todo"; js "in-progress"; js "done"].
Definition priorities : list jsstring := [js "low"; js "medium"; js "high"].

(** A member is present when the handler's test of it ([if (v)], [v &&])
    succeeds. *)
Definition present (v : jsval) : Prop := truthy v = true.


(** The title is a string that is not blank once trimmed. *)
Definition title_given (v : jsval) : Prop :=
  ∃ s, v = JStr s ∧ trim s ≠ [].

(** The value is one of the strings of an enumeration. *)
Definition in_enum (l : list jsstring) (v : jsval) : Prop :=
  ∃ s, v = JStr s ∧ s ∈ l.

Section Dates.
Variable Date_getTime : jsval → option Z.

(** A date member is acceptable when it is absent or parses. *)
Definition date_ok (v : jsval) : Prop :=
  present v → is_Some (Date_getTime v).

(** The five validations of an update, in the order of the handler. *)
Definition well_formed (b : task_body) : Prop :=
  title_given (b_title b)
  ∧ in_enum statuses (b_status b)
  ∧ (present (b_priority b) → in_enum priorities (b_priority b))
  ∧ date_ok (b_due_date b)
  ∧ date_ok (b_reminder_date b).
End Dates.

(** A request body with a title and no other member. *)
Definition title_only (t : jsstring) : task_body :=
  {| b_title := JStr t; b_description := JUndef; b_status := JUndef;
     b_due_date := JUndef; b_reminder_date := JUndef;
     b_priority := JUndef |}.

(** Every column of [t'] but [is_reminder_sent] is the one of [t]. *)
Definition same_but_reminder_sent (t t' : task) : Prop :=
  id t' = id t ∧ title t' = title t ∧ description t' = description t
  ∧ user_id t' = user_id t ∧ status t' = status t
  ∧ due_date t' = due_date t ∧ reminder_date t' = reminder_date t
  ∧ priority t' = priority t
  ∧ created_at t' = created_at t ∧ updated_at t' = updated_at t.

(** The primary key of [tasks]: no two rows share an identifier
    (modelled from the spec: "identifier (opaque, unique)"). *)
Definition ids_unique (d : db) : Prop := NoDup (id <$> tasks d).

(** The identifiers in use lie below the next value of the sequence. *)
Definition ids_drawn (d : db) : Prop :=
  ∀ t, t ∈ tasks d → id t < tasks_id_seq d.

(** The two together are kept by every route. *)
Definition keyed (d : db) : Prop := ids_unique d ∧ ids_drawn d.

End Spec.

(** ** Further vocabulary *)

Module View.
Import Server.

(** The rows of the table that belong to other users than [uid]. *)
Definition rows_of_others (uid : Z) (d : db) : list task :=
  filter (λ t, user_id t ≠ uid) (tasks d).

(** Every row has one of the three statuses. *)
Definition statuses_valid (d : db) : Prop :=
  ∀ t, t ∈ tasks d → status t ∈ Spec.statuses.

(** The client's [tasks] state is what GET /api/tasks answers the user. *)
Definition in_sync (u : jwt_payload) (tasks : list task) (d : db) : Prop :=
  (listTasks u d).1 = json 200 (Rows tasks).

(** The code unit of the space that [split(' ')] separates on. *)
Definition space : N := 32%N.

(** What one request of the user [uid] has done to the table, from the
    store [d] before it to the store [d'] after it. *)
Inductive effect (uid : Z) (r : Router.request) (d d' : db) : Prop :=
  | Unchanged :
      tasks d' = tasks d → tasks_id_seq d ≤ tasks_id_seq d' → effect uid r d d'
  | Inserted (row : task) :
      tasks d' = tasks d ++ [row] →
      tasks_id_seq d' = tasks_id_seq d + 1 →
      id row = tasks_id_seq d → user_id row = uid →
      status row = js "todo" → is_reminder_sent row = false →
      effect uid r d d'
  | Rewritten (i : Z) (g : task → task) :
      tasks d' = (λ t, if decide (owned_row i uid t) then g t else t) <$> tasks d →
      tasks_id_seq d' = tasks_id_seq d →
      (∀ t, id (g t) = id t ∧ user_id (g t) = user_id t
            ∧ is_reminder_sent (g t) = is_reminder_sent t
            ∧ status (g t) ∈ Spec.statuses) →
      effect uid r d d'
  | Deleted (i : Z) :
      tasks d' = filter (λ t, ¬ owned_row i uid t) (tasks d) →
      tasks_id_seq d' = tasks_id_seq d →
      effect uid r d d'
  | Marked (a : option jsstring) (i : Z) :
      r = Router.PostMarkReminderSent a i →
      tasks d' = mark_row i uid <$> tasks d →
      tasks_id_seq d' = tasks_id_seq d →
      effect uid r d d'.

(** The accounts are keyed: no two share an email or an identifier, and
    the identifiers in use lie below the next value of the sequence. *)
Definition accounts_keyed (a : Register.accounts) : Prop :=
  NoDup (email <$> users (Register.store a))
  ∧ NoDup (users_id <$> users (Register.store a))
  ∧ ∀ u, u ∈ users (Register.store a) → users_id u < Register.users_id_seq a.

End View.

(** ** Rows selected by [WHERE id = $1 AND user_id = $2] *)

Section OwnedRows.
Import Server Spec.

(** An UPDATE that keeps [id] and [user_id] returns the image of the rows
    its WHERE clause selects. *)
Lemma filter_owned_update i uid (g : task → task) (l : list task) :
  (∀ t, id (g t) = id t ∧ user_id (g t) = user_id t) →
  filter (owned_row i uid)
    ((λ t, if decide (owned_row i uid t) then g t else t) <$> l)
  = g <$> filter (owned_row i uid) l.
Proof.
  intros Hg. induction l as [|t l IH]; [done|].
  rewrite fmap_cons, !filter_cons.
  destruct (decide (owned_row i uid t)) as [H|H].
  - rewrite decide_True, fmap_cons, IH; [done|].
    destruct H, (Hg t). split; congruence.
  - by rewrite decide_False, IH.
Qed.

Lemma owned_filter_cons i uid (l : list task) t :
  t ∈ l → owned_row i uid t →
  ∃ t0 rest, filter (owned_row i uid) l = t0 :: rest.
Proof.
  intros Hin Ho.
  destruct (filter (owned_row i uid) l) as [|t0 rest] eqn:E; [|eauto].
  by destruct (filter_nil_not_elem_of _ _ t E).
Qed.

Lemma filter_owned_head i uid (l : list task) t0 rest :
  filter (owned_row i uid) l = t0 :: rest → t0 ∈ l ∧ owned_row i uid t0.
Proof.
  intros E.
  assert (t0 ∈ filter (owned_row i uid) l) as Hf by (rewrite E; left).
  by apply list_elem_of_filter in Hf as [? ?].
Qed.

(** Under the primary key, rows with one identifier are one row. *)
Lemma unique_id_eq (l : list task) x y :
  NoDup (id <$> l) → x ∈ l → y ∈ l → id x = id y → x = y.
Proof.
  induction l as [|z l IH]; intros Hnd Hx Hy He.
  - by apply elem_of_nil in Hx.
  - rewrite fmap_cons in Hnd. apply NoDup_cons in Hnd as [Hz Hnd].
    apply elem_of_cons in Hx as [->|Hx];
      apply elem_of_cons in Hy as [->|Hy]; try done.
    + destruct Hz. rewrite He. by apply list_elem_of_fmap_2.
    + destruct Hz. rewrite <- He. by apply list_elem_of_fmap_2.
    + by apply IH.
Qed.

(** So a task of another user shares its identifier with no row of the
    caller. *)
Lemma foreign_not_owned d t uid :
  ids_unique d → t ∈ tasks d → user_id t ≠ uid →
  filter (owned_row (id t) uid) (tasks d) = [].
Proof.
  unfold ids_unique. intros Hnd Hin Hne.
  destruct (filter _ _) as [|t0 rest] eqn:E; [done|].
  apply filter_owned_head in E as [Hin0 [Hid Hu]].
  by rewrite (unique_id_eq _ t0 t Hnd Hin0 Hin Hid) in Hu.
Qed.

End OwnedRows.

(** ** Properties of the backend *)

Section MarkReminderSent.
Import Server Spec.

Lemma owned_row_mark i uid j v t :
  owned_row i uid (mark_row j v t) ↔ owned_row i uid t.
Proof. unfold mark_row. by destruct (decide _). Qed.

Lemma markReminderSent_tasks u i d :
  tasks (markReminderSent u i d).2 = mark_row i (payload_id u) <$> tasks d.
Proof. unfold markReminderSent. by destruct (filter _ _). Qed.

Lemma filter_owned_mark i uid (l : list task) :
  filter (owned_row i uid) (mark_row i uid <$> l)
  = set_reminder_sent <$> filter (owned_row i uid) l.
Proof. by apply (filter_owned_update i uid set_reminder_sent). Qed.

Lemma markReminderSent_outcome u i d :
  (markReminderSent u i d).1
  = match set_reminder_sent <$> filter (owned_row i (payload_id u)) (tasks d) with
    | [] => not_found
    | row :: _ => json 200 (Row row)
    end.
Proof.
  unfold markReminderSent. simpl. rewrite filter_owned_mark.
  by destruct (fmap _ _).
Qed.



Lemma mark_row_same i uid t : same_but_reminder_sent t (mark_row i uid t).
Proof. unfold mark_row. by destruct (decide _). Qed.


(** C10: marking the reminder as sent leaves the users, the sequence and
    the number of rows alone, and each row keeps every column but the
    flag, the update timestamp included; the row answered with a 200 is
    an owned row of the table with only its flag set. *)
Theorem markReminderSent_frame u i d :
  let d' := (markReminderSent u i d).2 in
  users d' = users d ∧ tasks_id_seq d' = tasks_id_seq d
  ∧ (∀ k, (tasks d' !! k : option task) = mark_row i (payload_id u) <$> tasks d !! k)
  ∧ (∀ k t, tasks d !! k = Some t →
       ∃ t', tasks d' !! k = Some t' ∧ same_but_reminder_sent t t'
             ∧ (¬ owned_row i (payload_id u) t → t' = t))
  ∧ (∀ row, (markReminderSent u i d).1 = json 200 (Row row) →
       ∃ t, t ∈ tasks d ∧ owned_row i (payload_id u) t
            ∧ same_but_reminder_sent t row ∧ is_reminder_sent row = true).
Proof.
  intros d'. split_and!.
  - subst d'. unfold markReminderSent. by destruct (filter _ _).
  - subst d'. unfold markReminderSent. by destruct (filter _ _).
  - intros k. subst d'. by rewrite markReminderSent_tasks, list_lookup_fmap.
  - intros k t Hk. exists (mark_row i (payload_id u) t). subst d'.
    rewrite markReminderSent_tasks, list_lookup_fmap, Hk. split_and!.
    + done.
    + apply mark_row_same.
    + intros Hn. unfold mark_row. by rewrite decide_False.
  - intros row. rewrite markReminderSent_outcome.
    destruct (filter _ (tasks d)) as [|t0 rest] eqn:E; [done|].
    rewrite fmap_cons. intros [= <-].
    assert (t0 ∈ filter (owned_row i (payload_id u)) (tasks d)) as Hf
      by (rewrite E; left).
    apply list_elem_of_filter in Hf as [Ho Hin].
    exists t0. split_and!; try done.
Qed.


Lemma markReminderSent_frame_witness :
  ∃ t, t ∈ tasks Sample.store ∧ owned_row 1 1 t
       ∧ same_but_reminder_sent t (set_reminder_sent Sample.alice_task)
       ∧ is_reminder_sent (set_reminder_sent Sample.alice_task) = true.
Proof.
  apply (markReminderSent_frame Sample.alice 1 Sample.store). reflexivity.
Defined.

End MarkReminderSent.

(** ** [String.prototype.trim] *)

Section Trim.

Lemma trimEnd_trimEnd s : trimEnd (trimEnd s) = trimEnd s.
Proof.
  induction s as [|c s IH]; [done|]. simpl.
  destruct (trimEnd s) as [|x t] eqn:E.
  - destruct (is_ws c) eqn:Hc; [done|]. simpl. by rewrite Hc.
  - change (trimEnd (c :: x :: t)) with
      (match trimEnd (x :: t) with
       | [] => if is_ws c then [] else [c]
       | t' => c :: t'
       end).
    by rewrite IH.
Qed.

Lemma trimStart_head s :
  trimStart s = [] ∨ ∃ c r, trimStart s = c :: r ∧ is_ws c = false.
Proof.
  induction s as [|c s IH]; [by left|]. simpl.
  destruct (is_ws c) eqn:Hc; [done|]. right. eauto.
Qed.

Lemma trimEnd_head c r :
  is_ws c = false → ∃ r', trimEnd (c :: r) = c :: r'.
Proof. intros Hc. simpl. rewrite Hc. destruct (trimEnd r); eauto. Qed.

(** Trimming what is trimmed changes nothing: the title the PUT route
    stores is its own trim. *)
Lemma trim_trim s : trim (trim s) = trim s.
Proof.
  unfold trim. destruct (trimStart_head s) as [->|(c & r & -> & Hc)]; [done|].
  destruct (trimEnd_head c r Hc) as [r' E]. rewrite E.
  simpl trimStart. rewrite Hc, <- E. apply trimEnd_trimEnd.
Qed.

End Trim.

(** ** The validation block of PUT /api/tasks/:id *)

Section Validation.
Import Server Spec.
Variable Date_getTime : jsval → option Z.

Implicit Types (v : jsval) (b : task_body).

Lemma title_given_tests v s :
  v = JStr s → trim s ≠ [] →
  truthy v = true ∧ call_trim v = Some (trim s)
  ∧ truthy (JStr (trim s)) = true.
Proof.
  intros -> Ht. split_and!; [|done|].
  - simpl. destruct s; [done|]. by rewrite bool_decide_eq_false_2.
  - simpl. by rewrite bool_decide_eq_false_2.
Qed.

Lemma includes_in_enum l v : includes l v = true ↔ in_enum l v.
Proof.
  unfold in_enum. split.
  - destruct v; try done. simpl. intros ?%bool_decide_eq_true. eauto.
  - intros (s & -> & Hs). simpl. by apply bool_decide_eq_true.
Qed.

Lemma statuses_truthy v : in_enum statuses v → truthy v = true.
Proof.
  intros (s & -> & Hs). simpl. apply negb_true_iff, bool_decide_eq_false.
  intros ->. apply list_elem_of_In in Hs. vm_compute in Hs.
  intuition discriminate.
Qed.

Lemma priorities_truthy v : in_enum priorities v → truthy v = true.
Proof.
  intros (s & -> & Hs). simpl. apply negb_true_iff, bool_decide_eq_false.
  intros ->. apply list_elem_of_In in Hs. vm_compute in Hs.
  intuition discriminate.
Qed.

Lemma status_test_passes v :
  in_enum statuses v →
  negb (truthy v) || negb (includes [js "todo"; js "in-progress"; js "done"] v)
  = false.
Proof.
  intros H. rewrite (statuses_truthy v H).
  apply includes_in_enum in H. unfold statuses in H. by rewrite H.
Qed.


Lemma priority_test_passes v :
  (present v → in_enum priorities v) →
  truthy v && negb (includes [js "low"; js "medium"; js "high"] v) = false.
Proof.
  unfold present. intros H. destruct (truthy v); [|done].
  apply includes_in_enum in H; [|done]. unfold priorities in H.
  by rewrite H.
Qed.

Lemma priority_test_fails v :
  present v → ¬ in_enum priorities v →
  truthy v && negb (includes [js "low"; js "medium"; js "high"] v) = true.
Proof.
  unfold present. intros -> H. simpl. apply negb_true_iff.
  destruct (includes _ v) eqn:E; [|done].
  by apply (includes_in_enum priorities) in E.
Qed.

Lemma parse_date_ok v :
  date_ok Date_getTime v → ∃ o, parse_date Date_getTime v = Some o.
Proof.
  unfold date_ok, present, parse_date. intros H.
  destruct (truthy v); [|by eauto].
  destruct H as [x ->]; [done|]. by eauto.
Qed.


(** What the block accepts is well formed, and what it leaves to the
    handler is the trimmed title and the two parsed dates. *)
Lemma validate_accepted b trimmed due reminder :
  validate Date_getTime b = Accepted trimmed due reminder →
  well_formed Date_getTime b
  ∧ (∃ s, b_title b = JStr s ∧ trimmed = trim s) ∧ trimmed ≠ []
  ∧ parse_date Date_getTime (b_due_date b) = Some due
  ∧ parse_date Date_getTime (b_reminder_date b) = Some reminder.
Proof.
  unfold validate.
  destruct (truthy (b_title b)) eqn:Ht; cbn [negb]; [|done].
  destruct (call_trim (b_title b)) as [tr|] eqn:Hc; [|done].
  destruct (truthy (JStr tr)) eqn:Htr; cbn [negb]; [|done].
  destruct (truthy (b_status b)) eqn:Hs; cbn [negb orb]; [|done].
  destruct (includes _ (b_status b)) eqn:Hsi; cbn [negb]; [|done].
  destruct (truthy (b_priority b) && _) eqn:Hp; [done|].
  destruct (parse_date _ (b_due_date b)) as [du|] eqn:Hd; [|done].
  destruct (parse_date _ (b_reminder_date b)) as [re|] eqn:Hr; [|done].
  intros [= <- <- <-].
  assert (tr ≠ []) as Hne.
  { intros ->. done. }
  destruct (b_title b) as [| | | |s| |] eqn:Eb; try done.
  simpl in Hc. injection Hc as <-.
  unfold well_formed. rewrite Eb.
  split_and!; try done.
  - unfold title_given. eauto.
  - by apply (includes_in_enum statuses).
  - unfold present. intros Hpt. rewrite Hpt in Hp. simpl in Hp.
    apply negb_false_iff in Hp. by apply (includes_in_enum priorities).
  - unfold date_ok, present, parse_date in *. intros Hv. rewrite Hv in Hd.
    by destruct (Date_getTime (b_due_date b)).
  - unfold date_ok, present, parse_date in *. intros Hv. rewrite Hv in Hr.
    by destruct (Date_getTime (b_reminder_date b)).
  - eauto.
Qed.

(** Conversely a well-formed body is accepted. *)
Lemma validate_well_formed b :
  well_formed Date_getTime b →
  ∃ s due reminder,
    b_title b = JStr s
    ∧ validate Date_getTime b = Accepted (trim s) due reminder.
Proof.
  intros ((s & Hs & Ht) & Hst & Hp & Hd & Hr).
  destruct (title_given_tests _ _ Hs Ht) as (H1 & H2 & H3).
  destruct (parse_date_ok _ Hd) as [due Hdue].
  destruct (parse_date_ok _ Hr) as [reminder Hrem].
  exists s, due, reminder. split; [done|]. unfold validate.
  rewrite H1, H2, H3. simpl.
  rewrite (status_test_passes _ Hst), (priority_test_passes _ Hp).
  by rewrite Hdue, Hrem.
Qed.

End Validation.

(** ** PUT /api/tasks/:id *)

Section UpdateTask.
Import Server Spec.
Variable Date_getTime : jsval → option Z.
Variable pg_text : jsval → jsstring.

Implicit Types (v : jsval) (b : task_body) (d : db) (u : jwt_payload).

Local Abbreviation validate := (validate Date_getTime).
Local Abbreviation updateTask := (updateTask Date_getTime pg_text).
Local Abbreviation well_formed := (well_formed Date_getTime).

(** [v || 'literal'] bound to a text column is never NULL; it is the
    literal when [v] is absent. *)
Lemma bind_text_or v s :
  ∃ x, bind_text pg_text (js_or v (JStr s)) = Some x
       ∧ (truthy v = false → x = s)
       ∧ (∀ s', v = JStr s' → truthy v = true → x = s').
Proof.
  unfold js_or. destruct (truthy v) eqn:Hv.
  - exists (match v with JStr s' => s' | _ => pg_text v end).
    destruct v; try done; split_and!; try done.
    all: try by intros ? [= ->].
  - exists s. split_and!; try done.
Qed.

Lemma update_task_bound ti de st due reminder pr now i uid d :
  update_task (Some ti) (Some de) (Some st) due reminder (Some pr) now i uid d
  = let ts := (λ t, if decide (owned_row i uid t)
                    then write_task ti de st due reminder pr now t
                    else t) <$> tasks d in
    (Some (filter (owned_row i uid) ts),
     with_tasks ts (logged QUpdateTask d)).
Proof.
  unfold update_task. simpl.
  assert (∀ l : list task,
    mapM (λ t, if decide (owned_row i uid t)
               then set_task (Some ti) (Some de) (Some st) due reminder
                      (Some pr) now t
               else Some t) l
    = Some ((λ t, if decide (owned_row i uid t)
                  then write_task ti de st due reminder pr now t
                  else t) <$> l)) as ->; [|done].
  intros l. apply mapM_Some_2, Forall2_fmap_r, Forall_Forall2_diag.
  apply Forall_forall. intros t _. simpl. by repeat case_decide.
Qed.

(** The handler once the validation block has accepted the body: the
    lookup, then the UPDATE of the rows it found. *)
Lemma updateTask_accepted u now i b d trimmed due reminder :
  validate b = Accepted trimmed due reminder →
  ∃ de st pr,
    bind_text pg_text (js_or (b_description b) (JStr [])) = Some de
    ∧ b_status b = JStr st
    ∧ bind_text pg_text (js_or (b_priority b) (JStr (js "medium"))) = Some pr
    ∧ updateTask u now i b d
      = match filter (owned_row i (payload_id u)) (tasks d) with
        | [] => (not_found, logged QSelectTask d)
        | t0 :: _ =>
            (json 200 (Row (write_task trimmed de st due reminder pr now t0)),
             with_tasks
               ((λ t, if decide (owned_row i (payload_id u) t)
                      then write_task trimmed de st due reminder pr now t
                      else t) <$> tasks d)
               (logged QUpdateTask (logged QSelectTask d)))
        end.
Proof.
  intros Hv.
  destruct (validate_accepted _ _ _ _ _ Hv)
    as ((_ & (st & Hst & _) & _) & _).
  destruct (bind_text_or (b_description b) []) as (de & Hde & _).
  destruct (bind_text_or (b_priority b) (js "medium")) as (pr & Hpr & _).
  exists de, st, pr. split_and!; try done.
  unfold updateTask, Server.updateTask. rewrite Hv. simpl.
  destruct (filter _ (tasks d)) as [|t0 rest] eqn:E; [done|].
  rewrite Hde, Hpr, Hst. simpl bind_text.
  rewrite update_task_bound. simpl.
  rewrite (filter_owned_update i (payload_id u)
             (write_task trimmed de st due reminder pr now)) by done.
  by rewrite E.
Qed.

(** A title that passes [!title] and is not a string has no [trim]: the
    TypeError leaves the handler, which has not entered its [try] yet, and
    the store has not been reached. *)
Lemma updateTask_title_not_string u now i b d :
  truthy (b_title b) = true → (∀ s, b_title b ≠ JStr s) →
  updateTask u now i b d = (Unhandled, d).
Proof.
  intros Ht Hs. unfold Server.updateTask, Server.validate. rewrite Ht.
  destruct (b_title b); try done. by destruct (Hs s).
Qed.


(** C9: a successful update overwrites the optional columns a request
    leaves out: the row answered, which is the owned row as the store now
    holds it, has the empty description, the priority medium, and no due
    or reminder date wherever the member is absent from the body. *)
Theorem updateTask_absent_fields_default u now i b d row :
  (updateTask u now i b d).1 = json 200 (Row row) →
  (row ∈ tasks (updateTask u now i b d).2 ∧ owned_row i (payload_id u) row)
  ∧ (∀ t', t' ∈ tasks (updateTask u now i b d).2 →
           owned_row i (payload_id u) t' →
           description t' = description row ∧ priority t' = priority row
           ∧ due_date t' = due_date row
           ∧ reminder_date t' = reminder_date row)
  ∧ (b_description b = JUndef → description row = [])
  ∧ (b_priority b = JUndef → priority row = js "medium")
  ∧ (b_due_date b = JUndef → due_date row = None)
  ∧ (b_reminder_date b = JUndef → reminder_date row = None).
Proof.
  intros Hok.
  destruct (Server.validate Date_getTime b) as [msg| |trimmed due reminder] eqn:Hv.
  { unfold updateTask, Server.updateTask in Hok. by rewrite Hv in Hok. }
  { unfold updateTask, Server.updateTask in Hok. by rewrite Hv in Hok. }
  destruct (updateTask_accepted u now i b d _ _ _ Hv)
    as (de & st & pr & Hde & Hst & Hpr & Hu).
  destruct (validate_accepted _ _ _ _ _ Hv) as (_ & _ & _ & Hdue & Hrem).
  rewrite Hu in Hok |- *.
  destruct (filter _ (tasks d)) as [|t0 rest] eqn:E; [done|].
  simpl in Hok. injection Hok as <-.
  apply filter_owned_head in E as [Hin Ho]. simpl.
  split_and!.
  - apply list_elem_of_fmap. exists t0. by rewrite decide_True.
  - destruct Ho. by split.
  - intros t' (t1 & -> & _)%list_elem_of_fmap Ho'.
    case_decide as Hd; [done | by destruct Hd].
  - intros Hb. rewrite Hb in Hde. by injection Hde as <-.
  - intros Hb. rewrite Hb in Hpr. by injection Hpr as <-.
  - intros Hb. rewrite Hb in Hdue. by injection Hdue as <-.
  - intros Hb. rewrite Hb in Hrem. by injection Hrem as <-.
Qed.

(** The title a successful update stores is trimmed and not blank. *)
Lemma updateTask_title_trimmed u now i b d row :
  (updateTask u now i b d).1 = json 200 (Row row) →
  trim (title row) = title row ∧ title row ≠ [].
Proof.
  intros Hok.
  destruct (Server.validate Date_getTime b) as [msg| |trimmed due reminder] eqn:Hv.
  { unfold updateTask, Server.updateTask in Hok. by rewrite Hv in Hok. }
  { unfold updateTask, Server.updateTask in Hok. by rewrite Hv in Hok. }
  destruct (updateTask_accepted u now i b d _ _ _ Hv)
    as (de & st & pr & _ & _ & _ & Hu).
  destruct (validate_accepted _ _ _ _ _ Hv) as (_ & (s & _ & ->) & Hne & _).
  rewrite Hu in Hok. destruct (filter _ (tasks d)); [done|].
  simpl in Hok. injection Hok as <-. simpl. split; [apply trim_trim|done].
Qed.

(** An update re-stamps [updated_at] and keeps the identifier, the owner,
    the reminder-sent flag and [created_at] of the row. *)
Lemma updateTask_restamps u now i b d row :
  (updateTask u now i b d).1 = json 200 (Row row) →
  updated_at row = now
  ∧ ∃ t, t ∈ tasks d ∧ owned_row i (payload_id u) t
         ∧ id row = id t ∧ user_id row = user_id t
         ∧ is_reminder_sent row = is_reminder_sent t
         ∧ created_at row = created_at t.
Proof.
  intros Hok.
  destruct (Server.validate Date_getTime b) as [msg| |trimmed due reminder] eqn:Hv.
  { unfold updateTask, Server.updateTask in Hok. by rewrite Hv in Hok. }
  { unfold updateTask, Server.updateTask in Hok. by rewrite Hv in Hok. }
  destruct (updateTask_accepted u now i b d _ _ _ Hv)
    as (de & st & pr & _ & _ & _ & Hu).
  rewrite Hu in Hok. destruct (filter _ (tasks d)) as [|t0 rest] eqn:E; [done|].
  simpl in Hok. injection Hok as <-.
  apply filter_owned_head in E as [Hin Ho]. split; [done|].
  exists t0. by split_and!.
Qed.

End UpdateTask.


(** Alice's row had a description, the priority high, a due date and a
    reminder date; a PUT with a title and a status alone resets the four. *)
Lemma updateTask_absent_fields_default_witness :
  ∃ row,
    (Server.updateTask Sample.Date_getTime Sample.pg_text Sample.alice 100 1
       (Sample.body_of (JStr (js "Write spec")) (JStr (js "done")))
       Sample.store).1 = Server.json 200 (Server.Row row)
    ∧ Server.description row = []
    ∧ Server.priority row = js "medium"
    ∧ Server.due_date row = None
    ∧ Server.reminder_date row = None.
Proof.
  eexists. split; [reflexivity|].
  pose proof (updateTask_absent_fields_default Sample.Date_getTime
                Sample.pg_text Sample.alice 100 1
                (Sample.body_of (JStr (js "Write spec")) (JStr (js "done")))
                Sample.store _ eq_refl) as (_ & _ & H1 & H2 & H3 & H4).
  split_and!; [apply H1 | apply H2 | apply H3 | apply H4]; reflexivity.
Defined.

(** ** Ownership: a task of another user *)

Section Ownership.
Import Server Spec.
Variable jwt_verify : jsstring → option jwt_payload.
Variable Date_getTime : jsval → option Z.
Variable pg_text : jsval → jsstring.

Lemma filter_none_complement {A} (P : A → Prop) `{∀ x, Decision (P x)}
    (l : list A) :
  filter P l = [] → filter (λ x, ¬ P x) l = l.
Proof.
  induction l as [|x l IH]; [done|]. rewrite !filter_cons.
  destruct (decide (P x)); [done|]. intros E.
  rewrite decide_True by done. by rewrite IH.
Qed.

Lemma listTasks_rows u d :
  ∃ rows, (listTasks u d).1 = json 200 (Rows rows)
          ∧ Sorted by_id rows
          ∧ ∀ t, t ∈ rows ↔ t ∈ tasks d ∧ user_id t = payload_id u.
Proof.
  eexists. split; [reflexivity|]. split.
  - apply Sorted_merge_sort. intros x y. unfold by_id. lia.
  - intros t. rewrite merge_sort_Permutation, list_elem_of_filter. tauto.
Qed.

Lemma deleteTask_not_owned u i d :
  filter (owned_row i (payload_id u)) (tasks d) = [] →
  deleteTask u i d = (not_found, logged QDeleteTask d).
Proof.
  intros E. unfold deleteTask. simpl. rewrite E. simpl.
  rewrite filter_none_complement by done. by destruct d.
Qed.

Lemma markReminderSent_not_owned u i d :
  filter (owned_row i (payload_id u)) (tasks d) = [] →
  (markReminderSent u i d).1 = not_found
  ∧ tasks (markReminderSent u i d).2 = tasks d.
Proof.
  intros E. rewrite markReminderSent_outcome, markReminderSent_tasks, E.
  split; [done|].
  rewrite <- (list_fmap_id (tasks d)) at 2.
  apply list_fmap_ext. intros k t Hk. unfold mark_row.
  rewrite decide_False; [done|]. intros Ho.
  apply (filter_nil_not_elem_of _ _ t E Ho).
  by eapply list_elem_of_lookup_2.
Qed.

Lemma updateTask_not_owned u now i b d :
  filter (owned_row i (payload_id u)) (tasks d) = [] →
  tasks (updateTask Date_getTime pg_text u now i b d).2 = tasks d
  ∧ (well_formed Date_getTime b →
     (updateTask Date_getTime pg_text u now i b d).1 = not_found)
  ∧ (∀ r, (updateTask Date_getTime pg_text u now i b d).1 = Sent r →
          code r = 400 ∨ code r = 404).
Proof.
  intros E.
  destruct (validate Date_getTime b) as [msg| |trimmed due reminder] eqn:Hv.
  - unfold updateTask. rewrite Hv. split_and!; [done| |].
    + intros Hwf. destruct (validate_well_formed _ _ Hwf) as (?&?&?&_&Hv').
      congruence.
    + intros r [= <-]. by left.
  - unfold updateTask. rewrite Hv. split_and!; [done| |done].
    intros Hwf. destruct (validate_well_formed _ _ Hwf) as (?&?&?&_&Hv').
    congruence.
  - destruct (updateTask_accepted Date_getTime pg_text u now i b d _ _ _ Hv)
      as (de & st & pr & _ & _ & _ & ->).
    rewrite E. split_and!; [done..|]. intros r [= <-]. by right.
Qed.

(** C1 (as amended): when the bearer token verifies as a user who is not
    the owner of the task [t], the list of the caller does not contain
    [t], DELETE and mark-reminder-sent on its identifier answer 404, PUT
    answers 404 for every well-formed body and otherwise never anything
    but a 400 or a 404 (or no response at all), and the table is left as
    it was by all three. *)
Theorem foreign_task_not_found authorization caller d t now b :
  authenticateToken jwt_verify authorization = inr caller →
  ids_unique d → t ∈ tasks d → user_id t ≠ payload_id caller →
  (∃ rows, (GET_tasks jwt_verify authorization d).1 = json 200 (Rows rows)
           ∧ (t ∉ rows)
           ∧ ∀ t', t' ∈ rows → user_id t' = payload_id caller)
  ∧ ((well_formed Date_getTime b →
      (PUT_task jwt_verify Date_getTime pg_text authorization now (id t) b d).1
      = not_found)
     ∧ (∀ r, (PUT_task jwt_verify Date_getTime pg_text
                authorization now (id t) b d).1 = Sent r →
             code r = 400 ∨ code r = 404)
     ∧ tasks (PUT_task jwt_verify Date_getTime pg_text
                authorization now (id t) b d).2 = tasks d)
  ∧ ((DELETE_task jwt_verify authorization (id t) d).1 = not_found
     ∧ tasks (DELETE_task jwt_verify authorization (id t) d).2 = tasks d)
  ∧ ((POST_mark_reminder_sent jwt_verify authorization (id t) d).1 = not_found
     ∧ tasks (POST_mark_reminder_sent jwt_verify authorization (id t) d).2
       = tasks d).
Proof.
  intros Hauth Hu Hin Hne.
  pose proof (foreign_not_owned d t (payload_id caller) Hu Hin Hne) as E.
  unfold GET_tasks, PUT_task, DELETE_task, POST_mark_reminder_sent, protected.
  rewrite Hauth. split_and!.
  - destruct (listTasks_rows caller d) as (rows & -> & _ & Hrows).
    exists rows. split_and!; [done| |].
    + intros [_ ?]%Hrows. done.
    + by intros t' [_ ?]%Hrows.
  - apply (updateTask_not_owned caller now (id t) b d E).
  - apply (updateTask_not_owned caller now (id t) b d E).
  - apply (updateTask_not_owned caller now (id t) b d E).
  - by rewrite deleteTask_not_owned.
  - by rewrite deleteTask_not_owned.
  - by apply markReminderSent_not_owned.
  - by apply markReminderSent_not_owned.
Qed.

End Ownership.

(** C1 as stated fails: bob's PUT on the identifier of alice's task with an
    empty title is answered 400 "Le titre est requis.", not 404. *)
Lemma foreign_put_blank_title_is_400 :
  Server.authenticateToken Sample.jwt_verify (Some (js "Bearer bob-token"))
  = inr Sample.bob
  ∧ Sample.alice_task ∈ Server.tasks Sample.store
  ∧ Server.user_id Sample.alice_task ≠ Server.payload_id Sample.bob
  ∧ (Server.PUT_task Sample.jwt_verify Sample.Date_getTime Sample.pg_text
       (Some (js "Bearer bob-token")) 100 (Server.id Sample.alice_task)
       (Sample.body_of (JStr (js "")) (JStr (js "todo"))) Sample.store).1
    = Server.json 400 (Server.Msg "Le titre est requis.")
  ∧ (Server.PUT_task Sample.jwt_verify Sample.Date_getTime Sample.pg_text
       (Some (js "Bearer bob-token")) 100 (Server.id Sample.alice_task)
       (Sample.body_of (JStr (js "")) (JStr (js "todo"))) Sample.store).1
    ≠ Server.not_found.
Proof.
  split_and!; [reflexivity | left | vm_compute; discriminate | reflexivity |].
  vm_compute. discriminate.
Defined.

(** Bob, with a well-formed body, gets 404 on the identifier of alice's
    task, and her row is as it was. *)
Lemma foreign_task_not_found_witness :
  (Server.PUT_task Sample.jwt_verify Sample.Date_getTime Sample.pg_text
     (Some (js "Bearer bob-token")) 100 1
     (Sample.body_of (JStr (js "Mine now")) (JStr (js "done"))) Sample.store).1
  = Server.not_found
  ∧ (Server.DELETE_task Sample.jwt_verify
       (Some (js "Bearer bob-token")) 1 Sample.store).1 = Server.not_found
  ∧ Server.tasks (Server.DELETE_task Sample.jwt_verify
       (Some (js "Bearer bob-token")) 1 Sample.store).2 = [Sample.alice_task].
Proof.
  assert (Spec.ids_unique Sample.store) as Hu.
  { unfold Spec.ids_unique. simpl. apply NoDup_singleton. }
  assert (Sample.alice_task ∈ Server.tasks Sample.store) as Hin by left.
  assert (Server.user_id Sample.alice_task ≠ Server.payload_id Sample.bob)
    as Hne by (vm_compute; discriminate).
  pose proof (foreign_task_not_found Sample.jwt_verify Sample.Date_getTime
                Sample.pg_text (Some (js "Bearer bob-token")) Sample.bob
                Sample.store Sample.alice_task 100
                (Sample.body_of (JStr (js "Mine now")) (JStr (js "done")))
                eq_refl Hu Hin Hne) as (_ & (Hput & _) & (Hdel & Hdel') & _).
  split_and!; [apply Hput | apply Hdel | apply Hdel'].
  split_and!.
  - exists (js "Mine now"). split; [reflexivity|]. vm_compute. discriminate.
  - exists (js "done"). split; [reflexivity|]. by repeat constructor.
  - intros H. vm_compute in H. discriminate.
  - intros H. vm_compute in H. discriminate.
  - intros H. vm_compute in H. discriminate.
Defined.

(** ** POST /api/tasks *)

Section CreateTask.
Import Server Spec.
Variable pg_text : jsval → jsstring.
Variable pg_timestamp : jsval → option Z.

(** C7: a create request with a title and nothing else answers 201 with
    a row that has the empty description, the status todo, the priority
    medium, no due date, no reminder date and the reminder-sent flag
    false.  The row is persisted: the table after the request is the
    table before with that row at its end, under the identifier drawn
    from the sequence, and the list of the caller's tasks read back from
    the store after the request contains it; the users are untouched and
    the INSERT is the one statement sent. *)
Theorem createTask_title_only_defaults u now t d :
  ∃ row,
    createTask pg_text pg_timestamp u now (title_only t) d
    = (Sent {| code := 201; content := Row row |},
       {| users := users d; tasks := tasks d ++ [row];
          tasks_id_seq := tasks_id_seq d + 1;
          log := log d ++ [QInsertTask] |})
    ∧ row ∈ tasks (createTask pg_text pg_timestamp u now (title_only t) d).2
    ∧ (∃ rows,
         (listTasks u
            (createTask pg_text pg_timestamp u now (title_only t) d).2).1
         = Sent {| code := 200; content := Rows rows |}
         ∧ row ∈ rows)
    ∧ id row = tasks_id_seq d
    ∧ title row = t ∧ user_id row = payload_id u
    ∧ description row = []
    ∧ status row = js "todo"
    ∧ priority row = js "medium"
    ∧ due_date row = None ∧ reminder_date row = None
    ∧ is_reminder_sent row = false.
Proof.
  eexists. split; [reflexivity|]. split_and!; try done.
  - simpl. apply elem_of_app. right. left.
  - eexists. split; [reflexivity|].
    rewrite merge_sort_Permutation. apply list_elem_of_filter.
    split; [done|]. simpl. apply elem_of_app. right. left.
Qed.

(** The create route stores the title as it is bound, blank or not: the
    handler has no test of it. *)
Lemma createTask_stores_title u now b d t :
  b_title b = JStr t →
  b_due_date b = JUndef → b_reminder_date b = JUndef →
  ∃ row, (createTask pg_text pg_timestamp u now b d).1 = json 201 (Row row)
         ∧ title row = t
         ∧ row ∈ tasks (createTask pg_text pg_timestamp u now b d).2.
Proof.
  intros Ht Hd Hr. unfold createTask, insert_task. rewrite Ht, Hd, Hr.
  destruct (bind_text_or pg_text (b_description b) []) as (de & -> & _).
  destruct (bind_text_or pg_text (b_priority b) (js "medium")) as (pr & -> & _).
  simpl. eexists. split_and!; [done..|].
  apply elem_of_app. right. left.
Qed.

End CreateTask.

(** C4 fails on the create route: a title of three spaces is stored as it
    is, with a 201, and the stored title is blank once trimmed. *)
Lemma createTask_accepts_blank_title :
  ∃ row,
    Server.createTask Sample.pg_text Sample.pg_timestamp Sample.alice 100
      (Spec.title_only (js "   ")) Sample.empty_store
    = (Server.json 201 (Server.Row row),
       {| Server.users := []; Server.tasks := [row];
          Server.tasks_id_seq := 2; Server.log := [Server.QInsertTask] |})
    ∧ Server.title row = js "   "
    ∧ trim (Server.title row) = [].
Proof. eexists. split_and!; reflexivity. Qed.

(** ** GET /api/tasks/due-soon *)

Section DueSoon.
Import Server Spec.

Lemma by_due_date_total : Total by_due_date.
Proof.
  intros a b. unfold by_due_date.
  destruct (due_date a), (due_date b); simpl; try tauto. lia.
Qed.

(** What the query returns: the rows of the caller that are not done and
    whose due date is set and at most 24 hours after [now], by ascending
    due date.  The WHERE clause has no lower bound on [due_date]. *)
Lemma listDueSoon_rows u now d :
  ∃ rows,
    listDueSoon u now d = (json 200 (Rows rows), logged QSelectDueSoon d)
    ∧ Sorted by_due_date rows
    ∧ ∀ t, t ∈ rows ↔
           t ∈ tasks d ∧ user_id t = payload_id u ∧ status t ≠ js "done"
           ∧ ∃ due, due_date t = Some due ∧ due ≤ now + hours24.
Proof.
  eexists. split; [reflexivity|]. split.
  - apply Sorted_merge_sort, by_due_date_total.
  - intros t. rewrite merge_sort_Permutation, list_elem_of_filter.
    unfold due_soon_row, logged; simpl. split.
    + intros [(Hu & Hn & Ha & Hs) Hin]. split_and!; try done.
      destruct (due_date t) as [due|]; [|done]. by exists due.
    + intros (Hin & Hu & Hs & due & Hd & Hle). rewrite Hd. by split_and!.
Qed.

End DueSoon.

(** C2 fails on the code: a task of the caller that fell due at 5000 is
    returned by the due-soon query at [now = 1000000], long after. *)
Lemma listDueSoon_returns_overdue :
  Server.listDueSoon Sample.alice 1000000 Sample.store
  = (Server.json 200 (Server.Rows [Sample.alice_task]),
     Server.logged Server.QSelectDueSoon Sample.store)
  ∧ Server.due_date Sample.alice_task = Some 5000
  ∧ 5000 < 1000000.
Proof. split_and!; [reflexivity | reflexivity | lia]. Qed.

(** ** POST /api/auth/login *)

Section Login.
Import Server Spec.
Variable bcrypt_compare : jsstring → jsstring → bool.
Variable jwt_sign : jwt_payload → jsstring.
Variable pg_text : jsval → jsstring.

Local Abbreviation login := (login jwt_sign bcrypt_compare pg_text).

Lemma select_user_elem p d u :
  u ∈ select_user p d ↔ u ∈ users d ∧ p = Some (email u).
Proof.
  unfold select_user. destruct p as [e|].
  - rewrite list_elem_of_filter. split.
    + by intros [-> ?].
    + by intros [? [= ->]].
  - split; [by intros ?%elem_of_nil | by intros [_ ?]].
Qed.


(** The third failure of the route is not a mismatch: a password that is
    not a string makes bcryptjs throw once an account is found. *)
Lemma login_password_not_string e p d u rest :
  select_user (bind_text pg_text e) (logged QSelectUser d) = u :: rest →
  (∀ s, p ≠ JStr s) →
  (login e p d).1 = json 500 (Text "Erreur serveur").
Proof.
  intros E Hp. unfold login, Server.login. rewrite E.
  destruct p; try done. by destruct (Hp s).
Qed.

End Login.


(** ** The client's notifications *)

Section Notifications.
Import App.

(** Dismissal selects by task identifier alone: what is left is what had
    another identifier, whatever the category. *)
Lemma dismissNotification_elem i (ns : list notification) n :
  n ∈ dismissNotification i ns ↔ n ∈ ns ∧ id n ≠ i.
Proof. unfold dismissNotification. rewrite list_elem_of_filter. tauto. Qed.

Lemma onDismiss_same_task (ns : list notification) n m :
  id m = id n → m ∉ onDismiss n ns.
Proof.
  intros He [_ Hne]%dismissNotification_elem. by destruct Hne.
Qed.

(** A task that is not done and has a past due date and a past, unsent
    reminder pushes two notifications in one pass. *)
Lemma pushed_reminder_and_overdue now task r due :
  Server.reminder_date task = Some r → Server.due_date task = Some due →
  Server.is_reminder_sent task = false →
  Server.status task ≠ js "done" →
  r ≤ now → due < now →
  ∃ m1 m2, pushed now task
           = [ {| id := Server.id task; message := m1; type := reminder |};
               {| id := Server.id task; message := m2; type := overdue |} ].
Proof.
  intros Hr Hd Hs Hst Hrn Hdn. unfold pushed, isOverdue.
  rewrite Hr, Hd, Hs. simpl.
  rewrite (bool_decide_eq_false_2 _ Hst).
  rewrite !bool_decide_eq_true_2 by done. simpl. eauto.
Qed.

End Notifications.

(** C6 fails on the code: alice's overdue task with a past reminder has a
    reminder card and an overdue card, with distinct keys; dismissing the
    reminder card removes the overdue card as well. *)
Lemma dismiss_removes_other_category :
  ∃ n_reminder n_overdue,
    App.checkReminders 6000 [Sample.alice_task] [] = [n_reminder; n_overdue]
    ∧ App.card_key n_reminder = (1, App.reminder)
    ∧ App.card_key n_overdue = (1, App.overdue)
    ∧ App.onDismiss n_reminder [n_reminder; n_overdue] = [].
Proof. do 2 eexists. split_and!; reflexivity. Qed.

(** ** The primary key is an invariant of the routes *)

Section PrimaryKey.
Import Server Spec.
Variable Date_getTime : jsval → option Z.
Variable pg_text : jsval → jsstring.
Variable pg_timestamp : jsval → option Z.

Lemma keyed_empty us :
  keyed {| users := us; tasks := []; tasks_id_seq := 1; log := [] |}.
Proof.
  split; [apply NoDup_nil_2|]. by intros t ?%elem_of_nil.
Qed.

Lemma keyed_fmap (g : task → task) d l :
  (∀ t, id (g t) = id t) → keyed d →
  keyed {| users := users d; tasks := g <$> tasks d;
           tasks_id_seq := tasks_id_seq d; log := l |}.
Proof.
  intros Hg [Hu Hd]. split.
  - unfold ids_unique in *. simpl. rewrite <- list_fmap_compose.
    by rewrite (list_fmap_ext (id ∘ g) id (tasks d)) by (intros; apply Hg).
  - intros t (t0 & -> & Hin)%list_elem_of_fmap. simpl. rewrite Hg.
    by apply Hd.
Qed.

Lemma markReminderSent_keyed u i d :
  keyed d → keyed (markReminderSent u i d).2.
Proof.
  intros H. unfold markReminderSent.
  pose proof (keyed_fmap (mark_row i (payload_id u)) d
                (log d ++ [QMarkReminderSent])) as K.
  destruct (filter _ _); apply K; try done;
    intros x; unfold mark_row; by destruct (decide _).
Qed.

Lemma deleteTask_keyed u i d : keyed d → keyed (deleteTask u i d).2.
Proof.
  intros [Hu Hd].
  assert (keyed (with_tasks
                   (filter (λ t, ¬ owned_row i (payload_id u) t) (tasks d))
                   (logged QDeleteTask d))) as K.
  { split.
    - unfold ids_unique in *. simpl.
      apply (sublist_NoDup _ (id <$> tasks d)); [done|].
      apply fmap_sublist, sublist_filter.
    - intros t [_ Hin]%list_elem_of_filter. by apply Hd. }
  unfold deleteTask. by destruct (bool_decide _).
Qed.

Lemma updateTask_keyed u now i b d :
  keyed d → keyed (updateTask Date_getTime pg_text u now i b d).2.
Proof.
  intros H.
  destruct (validate Date_getTime b) as [msg| |trimmed due reminder] eqn:Hv.
  - unfold updateTask. by rewrite Hv.
  - unfold updateTask. by rewrite Hv.
  - destruct (updateTask_accepted Date_getTime pg_text u now i b d _ _ _ Hv)
      as (de & st & pr & _ & _ & _ & ->).
    destruct (filter _ (tasks d)); simpl.
    + by destruct H.
    + apply (keyed_fmap _ d _); [|done].
      intros x. by destruct (decide _).
Qed.

Lemma createTask_keyed u now b d :
  keyed d → keyed (createTask pg_text pg_timestamp u now b d).2.
Proof.
  intros [Hu Hd]. unfold createTask, insert_task.
  destruct (bind_timestamp _ _) as [due|]; [|by split].
  destruct (bind_timestamp _ _) as [reminder|]; [|by split].
  assert (keyed (nextval (logged QInsertTask d))) as K.
  { split; [done|]. intros t Hin. simpl. specialize (Hd t Hin). lia. }
  destruct (bind_text _ (b_title b)) as [ti|]; [|done].
  destruct (bind_text _ (js_or (b_description b) _)) as [de|]; [|done].
  destruct (bind_text _ (js_or (b_priority b) _)) as [pr|]; [|done].
  simpl. split.
  - unfold ids_unique. simpl. rewrite fmap_app. apply NoDup_app.
    split_and!; [done| |apply NoDup_singleton].
    intros x (t & -> & Hin)%list_elem_of_fmap Hx.
    apply list_elem_of_singleton in Hx. simpl in Hx.
    specialize (Hd t Hin). lia.
  - intros t [Hin|Hin%list_elem_of_singleton]%elem_of_app; simpl.
    + specialize (Hd t Hin). lia.
    + subst t. simpl. lia.
Qed.

End PrimaryKey.

(** ** The bearer token *)

Section BearerToken.
Import Server View.
Variable jwt_verify : jsstring → option jwt_payload.

Lemma split_on_no_sep c (s : jsstring) : c ∉ s → split_on c s = [s].
Proof.
induction s as [|x s IH]; [done|]. intros Hc.
apply not_elem_of_cons in Hc as [Hx Hs]. simpl.
rewrite bool_decide_eq_false_2 by done. by rewrite IH.
Qed.

Lemma split_on_sep c (w s : jsstring) :
c ∉ w → split_on c (w ++ c :: s) = w :: split_on c s.
Proof.
induction w as [|x w IH]; intros Hc; simpl.
- by rewrite bool_decide_eq_true_2.
- apply not_elem_of_cons in Hc as [Hx Hw].
  rewrite bool_decide_eq_false_2 by done. by rewrite IH.
Qed.

(** The token the middleware verifies is the second word of the header. *)
Lemma bearer_token_second_word (scheme token : jsstring) :
space ∉ scheme → space ∉ token →
bearer_token (Some (scheme ++ space :: token)) = Some token.
Proof.
intros Hs Ht. unfold bearer_token.
assert (truthy (JStr (scheme ++ space :: token)) = true) as ->.
{ simpl. rewrite bool_decide_eq_false_2; [done|]. by destruct scheme. }
unfold space in *. by rewrite split_on_sep, split_on_no_sep.
Qed.

(** The header [apiCall] sets for a token. *)
Lemma Authorization_header (token : jsstring) :
token ≠ [] →
Client.Authorization token = Some (js "Bearer" ++ space :: token).
Proof.
intros Hne. unfold Client.Authorization. simpl truthy.
by rewrite bool_decide_eq_false_2.
Qed.

Lemma space_not_in_Bearer : space ∉ js "Bearer".
Proof. intros H%list_elem_of_In. vm_compute in H. intuition discriminate. Qed.

(** X1: the middleware reads the second word of the header and never
  looks at the first: whatever the scheme word, a header "word token"
  is accepted or refused on the verification of the token alone. *)
Theorem authenticateToken_scheme_ignored (scheme token : jsstring) :
space ∉ scheme → space ∉ token →
authenticateToken jwt_verify (Some (scheme ++ space :: token))
= match jwt_verify token with
  | Some u => inr u
  | None => inl {| code := 403; content := StatusText |}
  end.
Proof.
intros Hs Ht. unfold authenticateToken.
rewrite bearer_token_second_word by done. by destruct (jwt_verify token).
Qed.

(** X2: a request without Authorization header, or whose header has no
  space in it, is answered 401 by every task route, and neither the
  tables nor the log of statements change. *)
Theorem dispatch_unauthorized Date_getTime pg_text pg_timestamp now r d :
(Router.authorization_of r = None
 ∨ ∃ h, Router.authorization_of r = Some h ∧ h ≠ [] ∧ space ∉ h) →
Router.dispatch jwt_verify Date_getTime pg_text pg_timestamp now r d
= (Sent {| code := 401; content := StatusText |}, d).
Proof.
intros H.
assert (authenticateToken jwt_verify (Router.authorization_of r)
        = inl {| code := 401; content := StatusText |}) as Ha.
{ unfold authenticateToken, bearer_token.
  destruct H as [->|(h & -> & Hne & Hsp)]; [done|].
  assert (truthy (JStr h) = true) as ->.
  { simpl. by rewrite bool_decide_eq_false_2. }
  unfold space in Hsp. by rewrite split_on_no_sep. }
destruct r; simpl in Ha |- *;
  unfold GET_tasks, POST_tasks, PUT_task, DELETE_task, GET_due_soon,
    GET_reminders, POST_mark_reminder_sent, protected; by rewrite Ha.
Qed.

End BearerToken.

Lemma authenticateToken_scheme_ignored_witness :
  Server.authenticateToken Sample.jwt_verify (Some (js "Basic bob-token"))
  = inr Sample.bob.
Proof.
  apply (authenticateToken_scheme_ignored Sample.jwt_verify
           (js "Basic") (js "bob-token")).
  - intros H%list_elem_of_In. vm_compute in H. intuition discriminate.
  - intros H%list_elem_of_In. vm_compute in H. intuition discriminate.
Defined.

Lemma dispatch_unauthorized_witness :
  Router.dispatch Sample.jwt_verify Sample.Date_getTime Sample.pg_text
    Sample.pg_timestamp 100 (Router.DeleteTask (Some (js "bob-token")) 1)
    Sample.store
  = (Server.Sent {| Server.code := 401; Server.content := Server.StatusText |},
     Sample.store).
Proof.
  apply (dispatch_unauthorized Sample.jwt_verify). right.
  exists (js "bob-token"). split_and!; [done|done|].
  intros H%list_elem_of_In. vm_compute in H. intuition discriminate.
Defined.

(** ** Sessions: login, then the token on a task route *)

Section Session.
Import Server View.
Variable jwt_verify : jsstring → option jwt_payload.
Variable jwt_sign : jwt_payload → jsstring.
Variable bcrypt_compare : jsstring → jsstring → bool.
Variable pg_text : jsval → jsstring.

(** X3: a login answered 200 was given the email of an account and a
  password its hash accepts, and its token is the signature of the
  identifier and the email of that account; when [jwt.verify] reads that
  token back and the token has no space, the Authorization header the
  client makes of it authenticates as that very account. *)
Theorem login_then_authenticate b_email b_password d token u :
(login jwt_sign bcrypt_compare pg_text b_email b_password d).1
= json 200 (Session token u) →
token = jwt_sign u
∧ (∃ account password,
    account ∈ users d
    ∧ bind_text pg_text b_email = Some (email account)
    ∧ b_password = JStr password
    ∧ bcrypt_compare password (password_hash account) = true
    ∧ payload_id u = users_id account
    ∧ payload_email u = email account)
∧ (jwt_verify token = Some u → token ≠ [] → space ∉ token →
   authenticateToken jwt_verify (Client.Authorization token) = inr u).
Proof.
unfold login.
destruct (select_user _ _) as [|account rest] eqn:E; [done|].
destruct b_password as [| | | |password| |]; try done.
destruct (bcrypt_compare password (password_hash account)) eqn:Hc; [|done].
simpl. intros [= <- <-]. split_and!.
- done.
- assert (account ∈ select_user (bind_text pg_text b_email)
                      (logged QSelectUser d))
    as [Hin He]%select_user_elem by (rewrite E; left).
  exists account, password. by split_and!.
- intros Hv Hne Hsp. rewrite Authorization_header by done.
  unfold authenticateToken.
  rewrite bearer_token_second_word by (done || apply space_not_in_Bearer).
  by rewrite Hv.
Qed.

End Session.

(** Alice logs in and her token opens the task routes as alice. *)
Lemma login_then_authenticate_witness :
  Server.authenticateToken Sample.jwt_verify
    (Client.Authorization (js "alice-token")) = inr Sample.alice.
Proof.
  apply (login_then_authenticate Sample.jwt_verify Sample.jwt_sign
           Sample.bcrypt_compare Sample.pg_text
           (JStr (js "alice@example.org")) (JStr (js "wonderland"))
           Sample.store (js "alice-token") Sample.alice).
  - reflexivity.
  - reflexivity.
  - done.
  - intros H%list_elem_of_In. vm_compute in H. intuition discriminate.
Defined.

(** ** POST /api/auth/register *)

Section Registration.
Import Server View.
Variable bcrypt_hash : jsstring → jsstring → jsstring.
Variable bcrypt_compare : jsstring → jsstring → bool.
Variable jwt_sign : jwt_payload → jsstring.
Variable pg_text : jsval → jsstring.

Local Abbreviation register := (Register.register bcrypt_hash pg_text).
Local Abbreviation login := (login jwt_sign bcrypt_compare pg_text).

Lemma email_taken_spec e us :
Register.email_taken e us = true ↔ ∃ u, u ∈ us ∧ email u = e.
Proof.
unfold Register.email_taken. rewrite bool_decide_eq_true, list_elem_of_fmap.
split; intros (u & ? & ?); eauto.
Qed.

(** What a registration leaves behind, by its answer. *)
Lemma register_cases salt b_email b_password a :
match (register salt b_email b_password a).1 with
| Register.Created i e =>
    ∃ password,
      b_password = JStr password ∧ truthy b_email = true
      ∧ bind_text pg_text b_email = Some e
      ∧ i = Register.users_id_seq a
      ∧ Register.email_taken e (users (Register.store a)) = false
      ∧ users (Register.store (register salt b_email b_password a).2)
        = users (Register.store a)
          ++ [{| users_id := i; email := e;
                 password_hash := bcrypt_hash password salt |}]
      ∧ Register.users_id_seq (register salt b_email b_password a).2 = i + 1
| Register.Refused r =>
    users (Register.store (register salt b_email b_password a).2)
    = users (Register.store a)
    ∧ Register.users_id_seq a
      ≤ Register.users_id_seq (register salt b_email b_password a).2
    ∧ (code r = 400 ∧ (register salt b_email b_password a).2 = a
       ∨ code r = 500)
end
∧ tasks (Register.store (register salt b_email b_password a).2)
  = tasks (Register.store a).
Proof.
unfold register, Register.register, Register.insert_user.
destruct (truthy b_email) eqn:He; simpl;
  [|split; [split_and!; [done|lia|by left]|done]].
destruct (truthy b_password) eqn:Hp; simpl;
  [|split; [split_and!; [done|lia|by left]|done]].
destruct b_password as [| | | |password| |]; simpl in Hp |- *; try done;
  try (split; [split_and!; [done|lia|by right]|done]).
destruct (bind_text pg_text b_email) as [e|] eqn:Hb; simpl.
- destruct (Register.email_taken e _) eqn:Ht; simpl.
  + split; [split_and!; [done|lia|by right]|done].
  + split; [|done]. exists password. by split_and!.
- split; [split_and!; [done|lia|by right]|done].
Qed.

(** X4: an account just registered can log in: when [bcrypt.compare]
  accepts the hash [bcrypt.hash] made of the password, a login with the
  email and the password of a registration answered 201 is answered 200,
  with the identifier and the email the registration returned. *)
Theorem register_then_login salt b_email password a i e :
bcrypt_compare password (bcrypt_hash password salt) = true →
(register salt b_email (JStr password) a).1 = Register.Created i e →
(login b_email (JStr password)
   (Register.store (register salt b_email (JStr password) a).2)).1
= json 200 (Session (jwt_sign {| payload_id := i; payload_email := e |})
              {| payload_id := i; payload_email := e |}).
Proof.
intros Hc Hr.
pose proof (register_cases salt b_email (JStr password) a) as [H _].
rewrite Hr in H. destruct H as (pw & [= <-] & _ & Hb & _ & Ht & Hu & _).
unfold login, Server.login, select_user. rewrite Hb. simpl users.
rewrite Hu, filter_app.
assert (filter (λ u, email u = e) (users (Register.store a)) = []) as ->.
{ destruct (filter _ _) as [|u0 rest] eqn:E; [done|].
  assert (u0 ∈ filter (λ u, email u = e) (users (Register.store a)))
    as [Hu0 Hin]%list_elem_of_filter by (rewrite E; left).
  assert (Register.email_taken e (users (Register.store a)) = true)
    by (apply email_taken_spec; eauto).
  congruence. }
rewrite filter_cons_True by done. simpl. by rewrite Hc.
Qed.

(** X5: an email is registered once: after a registration answered 201, a
  further registration with the same email, whatever its password, is
  answered 500 and adds no account. *)
Theorem register_twice salt b_email b_password a i e salt' b_password' :
(register salt b_email b_password a).1 = Register.Created i e →
truthy b_password' = true →
(register salt' b_email b_password'
   (register salt b_email b_password a).2).1 = Register.server_error
∧ users (Register.store
           (register salt' b_email b_password'
              (register salt b_email b_password a).2).2)
  = users (Register.store (register salt b_email b_password a).2).
Proof.
intros Hr Hp'.
pose proof (register_cases salt b_email b_password a) as [H _].
rewrite Hr in H. destruct H as (pw & -> & He & Hb & _ & _ & Hu & _).
set (a1 := (register salt b_email (JStr pw) a).2) in *. clearbody a1.
unfold Register.register, Register.insert_user.
rewrite He, Hp'. simpl.
destruct b_password' as [| | | |password'| |]; try done.
rewrite Hb.
assert (Register.email_taken e (users (Register.store a1)) = true) as ->.
{ apply email_taken_spec. rewrite Hu. eexists. split.
  - apply elem_of_app. right. left.
  - done. }
done.
Qed.

(** One registration keeps the accounts keyed. *)
Lemma register_keyed salt b_email b_password a :
accounts_keyed a →
accounts_keyed (register salt b_email b_password a).2.
Proof.
intros (He & Hi & Hs).
pose proof (register_cases salt b_email b_password a) as [H _].
destruct (register salt b_email b_password a).1 as [i e|r].
- destruct H as (pw & _ & _ & _ & -> & Ht & Hu & Hq).
  unfold accounts_keyed. rewrite Hu, Hq, !fmap_app. simpl. split_and!.
  + apply NoDup_app. split_and!; [done| |apply NoDup_singleton].
    intros x Hx Hk%list_elem_of_singleton. subst x.
    apply list_elem_of_fmap in Hx as (u & Hxe & Hin).
    assert (Register.email_taken e (users (Register.store a)) = true)
      by (apply email_taken_spec; eauto).
    congruence.
  + apply NoDup_app. split_and!; [done| |apply NoDup_singleton].
    intros x Hx Hk%list_elem_of_singleton. subst x.
    apply list_elem_of_fmap in Hx as (u & Hxe & Hin).
    specialize (Hs u Hin). lia.
  + intros u [Hin|Hin%list_elem_of_singleton]%elem_of_app; simpl.
    * specialize (Hs u Hin). lia.
    * subst u. simpl. lia.
- destruct H as (Hu & Hq & _). unfold accounts_keyed. rewrite Hu.
  split_and!; try done. intros u Hin. specialize (Hs u Hin). lia.
Qed.

(** X6: registrations keep the accounts keyed: however many are handled,
  with whatever emails and passwords and whether they are answered 201,
  400 or 500, no two accounts share an email or an identifier, and every
  identifier in use lies below the next value of the sequence. *)
Theorem register_keeps_accounts_keyed
(rs : list (jsstring * jsval * jsval)) a :
accounts_keyed a →
accounts_keyed
  (foldl (λ a r, (register r.1.1 r.1.2 r.2 a).2) a rs).
Proof.
revert a. induction rs as [|r rs IH]; intros a Ha; [done|].
simpl. by apply IH, register_keyed.
Qed.

End Registration.

(** Carol registers and logs in. *)
Lemma register_then_login_witness :
  (Server.login Sample.jwt_sign Sample.bcrypt_compare Sample.pg_text
     (JStr (js "carol@example.org")) (JStr (js "rabbit hole"))
     (Register.store
        (Register.register Demo.bcrypt_hash Sample.pg_text (js "salt")
           (JStr (js "carol@example.org")) (JStr (js "rabbit hole"))
           Demo.no_accounts).2)).1
  = Server.json 200
      (Server.Session
         (Sample.jwt_sign {| Server.payload_id := 1;
                             Server.payload_email := js "carol@example.org" |})
         {| Server.payload_id := 1;
            Server.payload_email := js "carol@example.org" |}).
Proof.
  apply (register_then_login Demo.bcrypt_hash Sample.bcrypt_compare
           Sample.jwt_sign Sample.pg_text); reflexivity.
Defined.

(** A second registration of carol's email fails. *)
Lemma register_twice_witness :
  (Register.register Demo.bcrypt_hash Sample.pg_text (js "pepper")
     (JStr (js "carol@example.org")) (JStr (js "other"))
     (Register.register Demo.bcrypt_hash Sample.pg_text (js "salt")
        (JStr (js "carol@example.org")) (JStr (js "rabbit hole"))
        Demo.no_accounts).2).1
  = Register.server_error.
Proof.
  apply (register_twice Demo.bcrypt_hash Sample.pg_text (js "salt")
           (JStr (js "carol@example.org")) (JStr (js "rabbit hole"))
           Demo.no_accounts 1 (js "carol@example.org")); reflexivity.
Defined.

(** Alice has an account; bob and carol register, and the emails of alice
    and of bob are each tried a second time. *)
Lemma register_keeps_accounts_keyed_witness :
  View.accounts_keyed
    (foldl (λ a r,
              (Register.register Demo.bcrypt_hash Sample.pg_text
                 r.1.1 r.1.2 r.2 a).2)
       Demo.registered Demo.signups)
  ∧ Server.email
      <$> Server.users
            (Register.store
               (foldl (λ a r,
                         (Register.register Demo.bcrypt_hash Sample.pg_text
                            r.1.1 r.1.2 r.2 a).2)
                  Demo.registered Demo.signups))
    = [js "alice@example.org"; js "bob@example.org"; js "carol@example.org"]
  ∧ Server.users_id
      <$> Server.users
            (Register.store
               (foldl (λ a r,
                         (Register.register Demo.bcrypt_hash Sample.pg_text
                            r.1.1 r.1.2 r.2 a).2)
                  Demo.registered Demo.signups))
    = [1; 2; 4].
Proof.
  split; [|split; reflexivity].
  apply (register_keeps_accounts_keyed Demo.bcrypt_hash Sample.pg_text).
  split_and!; [apply NoDup_singleton | apply NoDup_singleton |].
  intros u Hu. apply list_elem_of_singleton in Hu. by subst u.
Defined.

(** ** The task routes, one request after the other *)

Section Routes.
Import Server Spec View.
Variable jwt_verify : jsstring → option jwt_payload.
Variable Date_getTime : jsval → option Z.
Variable pg_text : jsval → jsstring.
Variable pg_timestamp : jsval → option Z.

Local Abbreviation dispatch :=
(Router.dispatch jwt_verify Date_getTime pg_text pg_timestamp).
Local Abbreviation run :=
(Router.run jwt_verify Date_getTime pg_text pg_timestamp).

(** A request the middleware refuses reaches no handler. *)
Lemma dispatch_refused now r d resp :
authenticateToken jwt_verify (Router.authorization_of r) = inl resp →
dispatch now r d = (Sent resp, d).
Proof.
intros Ha. destruct r; simpl in Ha |- *;
  unfold GET_tasks, POST_tasks, PUT_task, DELETE_task, GET_due_soon,
    GET_reminders, POST_mark_reminder_sent, protected; by rewrite Ha.
Qed.

Lemma createTask_effect u now b d r :
effect (payload_id u) r d (createTask pg_text pg_timestamp u now b d).2
∧ users (createTask pg_text pg_timestamp u now b d).2 = users d
∧ log d `prefix_of` log (createTask pg_text pg_timestamp u now b d).2.
Proof.
unfold createTask, insert_task.
destruct (bind_timestamp _ _) as [due|];
  [|split_and!; [by apply Unchanged|done|by apply prefix_app_r]].
destruct (bind_timestamp _ _) as [reminder|];
  [|split_and!; [by apply Unchanged|done|by apply prefix_app_r]].
destruct (text_columns _ _ _ _) as [[[[ti de] st] pr]|] eqn:E; simpl.
- split_and!; [|done|by apply prefix_app_r].
  eapply Inserted; simpl; try done.
  unfold text_columns in E.
  destruct (bind_text pg_text (b_title b)); [|done].
  destruct (bind_text pg_text (js_or (b_description b) _)); [|done].
  destruct (bind_text pg_text (js_or (b_priority b) _)); [|done].
  simpl in E. by injection E as _ _ <- _.
- split_and!; [|done|by apply prefix_app_r].
  apply Unchanged; simpl; [done|lia].
Qed.

Lemma updateTask_effect u now i b d r :
effect (payload_id u) r d (updateTask Date_getTime pg_text u now i b d).2
∧ users (updateTask Date_getTime pg_text u now i b d).2 = users d
∧ log d `prefix_of` log (updateTask Date_getTime pg_text u now i b d).2.
Proof.
destruct (validate Date_getTime b) as [msg| |trimmed due reminder] eqn:Hv.
- unfold updateTask. rewrite Hv. split_and!; [by apply Unchanged|done..].
- unfold updateTask. rewrite Hv. split_and!; [by apply Unchanged|done..].
- destruct (updateTask_accepted Date_getTime pg_text u now i b d _ _ _ Hv)
    as (de & st & pr & _ & Hst & _ & ->).
  destruct (validate_accepted _ _ _ _ _ Hv) as ((_ & Hs & _) & _).
  destruct (filter _ (tasks d)); simpl.
  + split_and!; [by apply Unchanged|done|by apply prefix_app_r].
  + split_and!; [|done|].
    * eapply (Rewritten _ _ _ _ i); simpl; [done..|].
      intros x. split_and!; try done. simpl.
      destruct Hs as (s & Hs & Hin). rewrite Hst in Hs. by injection Hs as ->.
    * rewrite <- app_assoc. by apply prefix_app_r.
Qed.

Lemma deleteTask_effect u i d r :
effect (payload_id u) r d (deleteTask u i d).2
∧ users (deleteTask u i d).2 = users d
∧ log d `prefix_of` log (deleteTask u i d).2.
Proof.
unfold deleteTask. destruct (bool_decide _); simpl;
  (split_and!; [by eapply (Deleted _ _ _ _ i)|done|by apply prefix_app_r]).
Qed.

Lemma markReminderSent_effect u a i d :
effect (payload_id u) (Router.PostMarkReminderSent a i) d
  (markReminderSent u i d).2
∧ users (markReminderSent u i d).2 = users d
∧ log d `prefix_of` log (markReminderSent u i d).2.
Proof.
unfold markReminderSent. destruct (filter _ _); simpl;
  (split_and!; [by eapply (Marked _ _ _ _ a i)|done|by apply prefix_app_r]).
Qed.

(** What a request that passed the middleware does to the store. *)
Lemma dispatch_effect now r d u :
authenticateToken jwt_verify (Router.authorization_of r) = inr u →
effect (payload_id u) r d (dispatch now r d).2
∧ users (dispatch now r d).2 = users d
∧ log d `prefix_of` log (dispatch now r d).2.
Proof.
intros Ha. destruct r; simpl in Ha |- *;
  unfold GET_tasks, POST_tasks, PUT_task, DELETE_task, GET_due_soon,
    GET_reminders, POST_mark_reminder_sent, protected; rewrite Ha.
- split_and!; [by apply Unchanged|done|by apply prefix_app_r].
- apply createTask_effect.
- apply updateTask_effect.
- apply deleteTask_effect.
- split_and!; [by apply Unchanged|done|by apply prefix_app_r].
- split_and!; [by apply Unchanged|done|by apply prefix_app_r].
- apply markReminderSent_effect.
Qed.

End Routes.

(** ** What the task routes keep *)

Section Kept.
Import Server Spec View.

Implicit Types (d : db) (r : Router.request).

Lemma effect_others uid r d d' :
effect uid r d d' → rows_of_others uid d' = rows_of_others uid d.
Proof.
unfold rows_of_others.
intros [E _|row E _ _ Hu _ _|i g E _ Hg|i E _|a i _ E _]; rewrite E.
- done.
- rewrite filter_app, filter_cons_False, filter_nil, app_nil_r; [done|].
  intros Hne. by apply Hne.
- clear E. induction (tasks d) as [|t l IH]; [done|].
  rewrite fmap_cons, !filter_cons, IH.
  destruct (decide (owned_row i uid t)) as [[_ Ho]|Hn]; [|done].
  destruct (Hg t) as (_ & Hgu & _).
  rewrite !decide_False; [done| |]; intros Hne; apply Hne; congruence.
- clear E. induction (tasks d) as [|t l IH]; [done|].
  rewrite !filter_cons.
  destruct (decide (¬ owned_row i uid t)) as [Hn|Ho].
  + by rewrite !filter_cons, IH.
  + rewrite IH, decide_False; [done|].
    intros Hne. apply Ho. by intros [_ ?].
- clear E. induction (tasks d) as [|t l IH]; [done|].
  rewrite fmap_cons, !filter_cons, IH. unfold mark_row.
  destruct (decide (owned_row i uid t)) as [[_ Ho]|Hn]; [|done].
  simpl. rewrite !decide_False; [done| |]; intros Hne; by apply Hne.
Qed.

Lemma effect_keyed uid r d d' : effect uid r d d' → keyed d → keyed d'.
Proof.
unfold keyed, ids_unique, ids_drawn.
intros [E Hs|row E Hs Hi _ _ _|i g E Hs Hg|i E Hs|a i _ E Hs] [Hu Hd];
  rewrite E, ?Hs.
- split; [done|]. intros t Hin. specialize (Hd t Hin). lia.
- split.
  + rewrite fmap_app. apply NoDup_app.
    split_and!; [done| |apply NoDup_singleton].
    intros x (t & -> & Hin)%list_elem_of_fmap Hx%list_elem_of_singleton.
    simpl in Hx. specialize (Hd t Hin). lia.
  + intros t [Hin|Hin%list_elem_of_singleton]%elem_of_app.
    * specialize (Hd t Hin). lia.
    * subst t. lia.
- split.
  + rewrite <- list_fmap_compose.
    rewrite (list_fmap_ext _ id (tasks d)); [done|].
    intros k t _. simpl. destruct (decide _); [|done]. apply Hg.
  + intros t' (t & -> & Hin)%list_elem_of_fmap.
    destruct (decide _); [|by apply Hd].
    destruct (Hg t) as (-> & _). by apply Hd.
- split.
  + apply (sublist_NoDup _ (id <$> tasks d)); [done|].
    apply fmap_sublist, sublist_filter.
  + intros t [_ Hin]%list_elem_of_filter. by apply Hd.
- split.
  + rewrite <- list_fmap_compose.
    rewrite (list_fmap_ext _ id (tasks d)); [done|].
    intros k t _. simpl. unfold mark_row. by destruct (decide _).
  + intros t' (t & -> & Hin)%list_elem_of_fmap.
    unfold mark_row. destruct (decide _); simpl; by apply Hd.
Qed.

Lemma effect_statuses uid r d d' :
effect uid r d d' → statuses_valid d → statuses_valid d'.
Proof.
unfold statuses_valid.
intros [E _|row E _ _ _ Hst _|i g E _ Hg|i E _|a i _ E _] Hv t'; rewrite E.
- apply Hv.
- intros [Hin|Hin%list_elem_of_singleton]%elem_of_app; [by apply Hv|].
  subst t'. rewrite Hst. unfold statuses. left.
- intros (t & -> & Hin)%list_elem_of_fmap.
  destruct (decide _); [apply Hg|by apply Hv].
- intros [_ Hin]%list_elem_of_filter. by apply Hv.
- intros (t & -> & Hin)%list_elem_of_fmap. unfold mark_row.
  destruct (decide _); simpl; by apply Hv.
Qed.

Lemma effect_reminder_sent uid r d d' t' :
effect uid r d d' → t' ∈ tasks d' → is_reminder_sent t' = true →
(∃ t, t ∈ tasks d ∧ id t = id t' ∧ user_id t = user_id t'
      ∧ is_reminder_sent t = true)
∨ ∃ a, r = Router.PostMarkReminderSent a (id t').
Proof.
intros [E _|row E _ _ _ _ Hf|i g E _ Hg|i E _|a i Hr E _]; rewrite E.
- intros Hin Ht. left. by exists t'.
- intros [Hin|Hin%list_elem_of_singleton]%elem_of_app Ht.
  + left. by exists t'.
  + subst t'. congruence.
- intros (t & -> & Hin)%list_elem_of_fmap Ht. left. exists t.
  destruct (decide _); [|done]. destruct (Hg t) as (-> & -> & <- & _).
  done.
- intros [_ Hin]%list_elem_of_filter Ht. left. by exists t'.
- intros (t & -> & Hin)%list_elem_of_fmap Ht. unfold mark_row in *.
  destruct (decide (owned_row i uid t)) as [[Hi _]|Hn].
  + right. exists a. simpl. by rewrite Hi.
  + left. by exists t.
Qed.

Variable jwt_verify : jsstring → option jwt_payload.
Variable Date_getTime : jsval → option Z.
Variable pg_text : jsval → jsstring.
Variable pg_timestamp : jsval → option Z.

Local Abbreviation dispatch :=
(Router.dispatch jwt_verify Date_getTime pg_text pg_timestamp).
Local Abbreviation run :=
(Router.run jwt_verify Date_getTime pg_text pg_timestamp).

(** X7: no request touches the tasks of another user: a request the
  middleware refuses leaves the store as it is, and one it lets through
  as the user [u] leaves the rows of every other user as they are, in
  their order. *)
Theorem dispatch_isolation now r d :
match authenticateToken jwt_verify (Router.authorization_of r) with
| inl resp => dispatch now r d = (Sent resp, d)
| inr u =>
    rows_of_others (payload_id u) (dispatch now r d).2
    = rows_of_others (payload_id u) d
end.
Proof.
destruct (authenticateToken _ _) as [resp|u] eqn:Ha.
- by apply dispatch_refused.
- eapply effect_others, dispatch_effect, Ha.
Qed.

Lemma dispatch_keyed now r d : keyed d → keyed (dispatch now r d).2.
Proof.
destruct (authenticateToken jwt_verify (Router.authorization_of r))
  as [resp|u] eqn:Ha.
- by rewrite (dispatch_refused _ _ _ _ _ _ _ _ Ha).
- eapply effect_keyed, dispatch_effect, Ha.
Qed.

(** X8: however many requests are handled, of whatever users and in
  whatever order, no two tasks share an identifier and every identifier
  lies below the next value of the sequence. *)
Theorem run_keyed rs d : keyed d → keyed (run rs d).
Proof.
revert d. induction rs as [|[now r] rs IH]; intros d Hk; [done|].
simpl. by apply IH, dispatch_keyed.
Qed.

(** X9: the status of every task stays one of todo, in-progress and done:
  a task is created with todo and an update writes a status only after
  it has checked it against the three. *)
Theorem run_statuses_valid rs d : statuses_valid d → statuses_valid (run rs d).
Proof.
revert d. induction rs as [|[now r] rs IH]; intros d Hv; [done|].
simpl. apply IH.
destruct (authenticateToken jwt_verify (Router.authorization_of r))
  as [resp|u] eqn:Ha.
- by rewrite (dispatch_refused _ _ _ _ _ _ _ _ Ha).
- eapply effect_statuses; [eapply dispatch_effect, Ha|done].
Qed.

(** X10: the task routes never write to the accounts, never move the
  sequence of identifiers back, and only ever add to the statements
  sent to the store. *)
Theorem run_frame rs d :
users (run rs d) = users d
∧ tasks_id_seq d ≤ tasks_id_seq (run rs d)
∧ log d `prefix_of` log (run rs d).
Proof.
revert d. induction rs as [|[now r] rs IH]; intros d; [done|].
simpl. destruct (IH (dispatch now r d).2) as (Hu & Hs & Hl).
assert (users (dispatch now r d).2 = users d
        ∧ tasks_id_seq d ≤ tasks_id_seq (dispatch now r d).2
        ∧ log d `prefix_of` log (dispatch now r d).2) as (Hu' & Hs' & Hl').
{ destruct (authenticateToken jwt_verify (Router.authorization_of r))
    as [resp|u] eqn:Ha.
  - by rewrite (dispatch_refused _ _ _ _ _ _ _ _ Ha).
  - destruct (dispatch_effect jwt_verify Date_getTime pg_text pg_timestamp
                now r d u Ha) as (He & ? & ?).
    split_and!; try done.
    destruct He as [_ ?|? _ ? _ _ _ _|? ? _ ? _|? _ ?|? ? _ _ ?]; lia. }
split_and!; [congruence|lia|by etrans].
Qed.

(** X11: the reminder-sent flag is set by the mark-reminder-sent route and
  by nothing else: a task that has the flag after a request had it
  before, unless the request is a mark-reminder-sent on its identifier;
  a new task never has it, and an update carries it over. *)
Theorem reminder_sent_only_by_mark now r d t' :
t' ∈ tasks (dispatch now r d).2 → is_reminder_sent t' = true →
(∃ t, t ∈ tasks d ∧ id t = id t' ∧ user_id t = user_id t'
      ∧ is_reminder_sent t = true)
∨ ∃ a, r = Router.PostMarkReminderSent a (id t').
Proof.
destruct (authenticateToken jwt_verify (Router.authorization_of r))
  as [resp|u] eqn:Ha.
- rewrite (dispatch_refused _ _ _ _ _ _ _ _ Ha). intros Hin Ht.
  left. by exists t'.
- eapply effect_reminder_sent, dispatch_effect, Ha.
Qed.

End Kept.

(** After the morning of alice and bob the table is keyed. *)
Lemma run_keyed_witness :
  Spec.keyed
    (Router.run Sample.jwt_verify Sample.Date_getTime Sample.pg_text
       Sample.pg_timestamp Demo.morning Sample.empty_store).
Proof.
  apply (run_keyed Sample.jwt_verify Sample.Date_getTime Sample.pg_text
           Sample.pg_timestamp Demo.morning Sample.empty_store).
  apply (keyed_empty []).
Defined.

Lemma run_statuses_valid_witness :
  View.statuses_valid
    (Router.run Sample.jwt_verify Sample.Date_getTime Sample.pg_text
       Sample.pg_timestamp Demo.morning Sample.empty_store).
Proof.
  apply (run_statuses_valid Sample.jwt_verify Sample.Date_getTime
           Sample.pg_text Sample.pg_timestamp Demo.morning Sample.empty_store).
  intros t Hin. by apply elem_of_nil in Hin.
Defined.

(** Alice's task keeps its flag through an update because it had it. *)
Lemma reminder_sent_only_by_mark_witness :
  (∃ t, t ∈ Server.tasks Demo.reminded ∧ Server.id t = 1
        ∧ Server.user_id t = 1 ∧ Server.is_reminder_sent t = true)
  ∨ ∃ a, Router.PutTask (Some (js "Bearer alice-token")) 1
           (Sample.body_of (JStr (js "Write spec")) (JStr (js "done")))
         = Router.PostMarkReminderSent a 1.
Proof.
  apply (reminder_sent_only_by_mark Sample.jwt_verify Sample.Date_getTime
           Sample.pg_text Sample.pg_timestamp 300
           (Router.PutTask (Some (js "Bearer alice-token")) 1
              (Sample.body_of (JStr (js "Write spec")) (JStr (js "done"))))
           Demo.reminded
           (Server.write_task (js "Write spec") [] (js "done") None None
              (js "medium") 300
              (Server.set_reminder_sent Sample.alice_task))).
  - left.
  - reflexivity.
Defined.

(** ** More of the task routes *)

Section TaskRoutes.
Import Server Spec View.
Variable Date_getTime : jsval → option Z.
Variable pg_text : jsval → jsstring.
Variable pg_timestamp : jsval → option Z.

Implicit Types (d : db) (u : jwt_payload).

(** X12: a delete of a task of the caller answers 204 and removes the rows
  with that identifier and owner, and only those; repeated, it answers
  404 and removes nothing. *)
Theorem deleteTask_owned u i d t :
t ∈ tasks d → owned_row i (payload_id u) t →
(deleteTask u i d).1 = json 204 Empty
∧ (∀ t', t' ∈ tasks (deleteTask u i d).2
         ↔ t' ∈ tasks d ∧ ¬ owned_row i (payload_id u) t')
∧ tasks (deleteTask u i d).2 `sublist_of` tasks d
∧ (deleteTask u i (deleteTask u i d).2).1 = not_found
∧ tasks (deleteTask u i (deleteTask u i d).2).2 = tasks (deleteTask u i d).2.
Proof.
intros Hin Ho.
destruct (owned_filter_cons _ _ _ _ Hin Ho) as (t0 & rest & E).
assert (tasks (deleteTask u i d).2
        = filter (λ x, ¬ owned_row i (payload_id u) x) (tasks d)) as Ht.
{ unfold deleteTask. by destruct (bool_decide _). }
assert (filter (owned_row i (payload_id u)) (tasks (deleteTask u i d).2) = [])
  as Hnone.
{ rewrite Ht. destruct (filter _ (filter _ _)) as [|x xs] eqn:E'; [done|].
  apply filter_owned_head in E' as [[Hx _]%list_elem_of_filter Hox]. done. }
split_and!.
- unfold deleteTask. simpl. by rewrite E.
- intros t'. rewrite Ht, list_elem_of_filter. tauto.
- rewrite Ht. apply sublist_filter.
- by rewrite deleteTask_not_owned.
- by rewrite deleteTask_not_owned.
Qed.

(** X13: an update of a task of the caller with a well-formed body goes
  through: it answers 200 with the row as stored, whose status is the
  one of the body whatever the status was, whose title is the trimmed
  title of the body and whose update time is now; the rows the caller
  does not own at that identifier stay where and as they are, and the
  store has received the lookup and the UPDATE, in that order. *)
Theorem updateTask_succeeds u now i b d t :
well_formed Date_getTime b →
t ∈ tasks d → owned_row i (payload_id u) t →
∃ row,
  (updateTask Date_getTime pg_text u now i b d).1 = json 200 (Row row)
  ∧ row ∈ tasks (updateTask Date_getTime pg_text u now i b d).2
  ∧ owned_row i (payload_id u) row
  ∧ b_status b = JStr (status row)
  ∧ (∃ s, b_title b = JStr s ∧ title row = trim s)
  ∧ updated_at row = now
  ∧ (∀ k x, tasks d !! k = Some x → ¬ owned_row i (payload_id u) x →
       tasks (updateTask Date_getTime pg_text u now i b d).2 !! k = Some x)
  ∧ length (tasks (updateTask Date_getTime pg_text u now i b d).2)
    = length (tasks d)
  ∧ log (updateTask Date_getTime pg_text u now i b d).2
    = log d ++ [QSelectTask; QUpdateTask].
Proof.
intros Hwf Hin Ho.
destruct (validate_well_formed _ _ Hwf) as (s & due & reminder & Hs & Hv).
destruct (updateTask_accepted Date_getTime pg_text u now i b d _ _ _ Hv)
  as (de & st & pr & _ & Hst & _ & ->).
destruct (owned_filter_cons _ _ _ _ Hin Ho) as (t0 & rest & E).
rewrite E. apply filter_owned_head in E as [Hin0 Ho0]. simpl.
eexists. split_and!; try done.
- apply list_elem_of_fmap. exists t0. by rewrite decide_True.
- eauto.
- intros k x Hk Hn. rewrite list_lookup_fmap, Hk. simpl.
  by rewrite decide_False.
- by rewrite length_fmap.
- by rewrite <- app_assoc.
Qed.

Lemma by_reminder_date_total : Total by_reminder_date.
Proof.
intros a b. unfold by_reminder_date.
destruct (reminder_date a), (reminder_date b); simpl; try tauto. lia.
Qed.

(** X14: the reminders query returns, by ascending reminder date and each
  once, the tasks of the caller that are not done, whose reminder has
  not been sent and whose reminder date is set and not after [now]. *)
Theorem listReminders_rows u now d :
∃ rows,
  listReminders u now d = (json 200 (Rows rows), logged QSelectReminders d)
  ∧ Sorted by_reminder_date rows
  ∧ rows ≡ₚ filter (reminder_row (payload_id u) now) (tasks d)
  ∧ ∀ t, t ∈ rows ↔
         t ∈ tasks d ∧ user_id t = payload_id u ∧ status t ≠ js "done"
         ∧ is_reminder_sent t = false
         ∧ ∃ r, reminder_date t = Some r ∧ r ≤ now.
Proof.
eexists. split; [reflexivity|]. split_and!.
- apply Sorted_merge_sort, by_reminder_date_total.
- apply merge_sort_Permutation.
- intros t. rewrite merge_sort_Permutation, list_elem_of_filter.
  unfold reminder_row, logged; simpl. split.
  + intros [(Hu & Hn & Ha & Hf & Hs) Hin]. split_and!; try done.
    destruct (reminder_date t) as [r|]; [|done]. by exists r.
  + intros (Hin & Hu & Hs & Hf & r & Hr & Hle). rewrite Hr. by split_and!.
Qed.

(** A row of the reminders is a row of the table whose flag is down. *)
Lemma listReminders_unsent u now d rows t :
(listReminders u now d).1 = json 200 (Rows rows) →
t ∈ rows →
t ∈ tasks d ∧ user_id t = payload_id u ∧ is_reminder_sent t = false.
Proof.
unfold listReminders; simpl. intros [= <-].
rewrite merge_sort_Permutation, list_elem_of_filter.
unfold reminder_row. by intros [(Hu & _ & _ & Hf & _) Hin].
Qed.

(** X15: once its reminder is marked as sent, a task is out of the
  reminders for good, even when a later update gives it a new reminder
  date: the update carries the flag over. *)
Theorem marked_reminder_not_rearmed u i d now' b now rows :
(listReminders u now
   (updateTask Date_getTime pg_text u now' i b
      (markReminderSent u i d).2).2).1 = json 200 (Rows rows) →
∀ t, t ∈ rows → id t ≠ i.
Proof.
intros Hl t Hin Hi.
apply (listReminders_unsent _ _ _ _ _ Hl) in Hin as (Hin & Hu & Hf).
assert (∀ x, x ∈ tasks (markReminderSent u i d).2 →
             owned_row i (payload_id u) x → is_reminder_sent x = true) as Hm.
{ intros x. rewrite markReminderSent_tasks.
  intros (x0 & -> & _)%list_elem_of_fmap Hx%owned_row_mark.
  unfold mark_row. by rewrite decide_True. }
set (d1 := (markReminderSent u i d).2) in *. clearbody d1.
destruct (validate Date_getTime b) as [msg| |trimmed due reminder] eqn:Hv.
- unfold updateTask in Hin. rewrite Hv in Hin. simpl in Hin.
  rewrite (Hm t Hin) in Hf; done.
- unfold updateTask in Hin. rewrite Hv in Hin. simpl in Hin.
  rewrite (Hm t Hin) in Hf; done.
- destruct (updateTask_accepted Date_getTime pg_text u now' i b d1 _ _ _ Hv)
    as (de & st & pr & _ & _ & _ & Hupd).
  rewrite Hupd in Hin. destruct (filter _ (tasks d1)); simpl in Hin.
  + rewrite (Hm t Hin) in Hf; done.
  + apply list_elem_of_fmap in Hin as (x & -> & Hx).
    destruct (decide (owned_row i (payload_id u) x)) as [Hox|Hn].
    * simpl in Hf. by rewrite (Hm x Hx Hox) in Hf.
    * by rewrite (Hm x Hx) in Hf.
Qed.

(** X16: a due date or a reminder date that PostgreSQL cannot read makes
  the create route answer 500, and no task is stored. *)
Theorem createTask_rejected_date u now b d :
(truthy (b_due_date b) = true ∧ pg_timestamp (b_due_date b) = None)
∨ (truthy (b_reminder_date b) = true
   ∧ pg_timestamp (b_reminder_date b) = None) →
createTask pg_text pg_timestamp u now b d
= (json 500 (Msg "Erreur serveur lors de la création de la tâche"),
   logged QInsertTask d).
Proof.
assert (∀ v, truthy v = true → pg_timestamp v = None →
             bind_timestamp pg_timestamp (js_or v JNull) = None) as Hb.
{ intros v Hv Hp. unfold js_or. rewrite Hv.
  destruct v; try done; simpl; by rewrite Hp. }
unfold createTask, insert_task. intros [[Hv Hp]|[Hv Hp]].
- by rewrite (Hb _ Hv Hp).
- rewrite (Hb _ Hv Hp). by destruct (bind_timestamp _ _).
Qed.

End TaskRoutes.

(** Alice deletes her task. *)
Lemma deleteTask_owned_witness :
  (Server.deleteTask Sample.alice 1 Sample.store).1
  = Server.json 204 Server.Empty.
Proof.
  apply (deleteTask_owned Sample.alice 1 Sample.store Sample.alice_task).
  - left.
  - done.
Defined.

(** Alice moves her task from todo to done. *)
Lemma updateTask_succeeds_witness :
  ∃ row,
    (Server.updateTask Sample.Date_getTime Sample.pg_text Sample.alice 300 1
       (Sample.body_of (JStr (js " Write spec ")) (JStr (js "done")))
       Sample.store).1 = Server.json 200 (Server.Row row)
    ∧ Server.status row = js "done"
    ∧ Server.title row = js "Write spec".
Proof.
  destruct (updateTask_succeeds Sample.Date_getTime Sample.pg_text
              Sample.alice 300 1
              (Sample.body_of (JStr (js " Write spec ")) (JStr (js "done")))
              Sample.store Sample.alice_task)
    as (row & Hr & _ & _ & Hst & (s & Hs & Ht) & _).
  - split_and!.
    + exists (js " Write spec "). split; [reflexivity|]. vm_compute. discriminate.
    + exists (js "done"). split; [reflexivity|]. by repeat constructor.
    + intros H. vm_compute in H. discriminate.
    + intros H. vm_compute in H. discriminate.
    + intros H. vm_compute in H. discriminate.
  - left.
  - done.
  - exists row. split_and!; [done| |].
    + simpl in Hst. by injection Hst as <-.
    + simpl in Hs. injection Hs as <-. by rewrite Ht.
Defined.

(** Alice's reminder is marked, she sets a new reminder date that is due,
    and the reminders hold her second task only. *)
Lemma marked_reminder_not_rearmed_witness :
  Forall (λ t, Server.id t ≠ 1) [Demo.second_task].
Proof.
  apply Forall_forall.
  apply (marked_reminder_not_rearmed Demo.Date_getTime Sample.pg_text
           Sample.alice 1 Demo.two_tasks 300
           {| Server.b_title := JStr (js "Write spec");
              Server.b_description := JUndef;
              Server.b_status := JStr (js "todo");
              Server.b_due_date := JUndef;
              Server.b_reminder_date := JStr (js "tomorrow");
              Server.b_priority := JUndef |} 5000).
  reflexivity.
Defined.

(** A due date that is no timestamp. *)
Lemma createTask_rejected_date_witness :
  (Server.createTask Sample.pg_text Sample.pg_timestamp Sample.alice 100
     {| Server.b_title := JStr (js "Write spec");
        Server.b_description := JUndef; Server.b_status := JUndef;
        Server.b_due_date := JStr (js "someday");
        Server.b_reminder_date := JUndef; Server.b_priority := JUndef |}
     Sample.empty_store).1
  = Server.json 500 (Server.Msg "Erreur serveur lors de la création de la tâche").
Proof.
  rewrite (createTask_rejected_date Sample.pg_text Sample.pg_timestamp);
    [done|]. left. by split.
Defined.

(** ** The client's task state and the store *)

Section InSync.
Import Server Spec View.

Implicit Types (d : db) (u : jwt_payload) (l : list task).

Lemma by_id_trans : Transitive by_id.
Proof. intros a b c. unfold by_id. lia. Qed.

Lemma by_id_total : Total by_id.
Proof. intros a b. unfold by_id. lia. Qed.

Lemma StronglySorted_filter {A} (R : relation A) (P : A → Prop)
  `{∀ x, Decision (P x)} (l : list A) :
StronglySorted R l → StronglySorted R (filter P l).
Proof.
induction 1 as [|x l Hl IH Hx]; [constructor|].
rewrite filter_cons. destruct (decide (P x)); [|done].
constructor; [done|]. rewrite Forall_forall in Hx |- *.
intros y [_ Hy]%list_elem_of_filter. by apply Hx.
Qed.

Lemma Sorted_by_id_filter (P : task → Prop) `{∀ x, Decision (P x)} l :
Sorted by_id l → Sorted by_id (filter P l).
Proof.
intros Hs. apply StronglySorted_Sorted, StronglySorted_filter.
by apply (@Sorted_StronglySorted _ by_id by_id_trans).
Qed.

(** Two listings of the same rows by ascending identifier are one, the
  identifiers being unique. *)
Lemma sorted_rows_unique l1 l2 :
NoDup (id <$> l1) → l1 ≡ₚ l2 → Sorted by_id l1 → Sorted by_id l2 → l1 = l2.
Proof.
intros Hnd Hp H1 H2.
apply (@Sorted_unique_strong _ by_id by_id_trans); try done.
intros x1 x2 Hx1 Hx2 H12 H21. unfold by_id in *.
apply (unique_id_eq l1); [done|done|by rewrite Hp|lia].
Qed.

Lemma user_rows_NoDup d uid :
keyed d → NoDup (id <$> filter (λ t, user_id t = uid) (tasks d)).
Proof.
intros [Hu _]. apply (sublist_NoDup _ (id <$> tasks d)); [done|].
apply fmap_sublist, sublist_filter.
Qed.

(** A listing is the answer of GET /api/tasks as soon as it holds the rows
  of the user, each once, by ascending identifier. *)
Lemma in_sync_intro u l d :
keyed d →
l ≡ₚ filter (λ t, user_id t = payload_id u) (tasks d) →
Sorted by_id l →
in_sync u l d.
Proof.
intros Hk Hp Hs. unfold in_sync, listTasks. simpl. do 3 f_equal.
symmetry. apply sorted_rows_unique; [| |done|].
- rewrite Hp. by apply user_rows_NoDup.
- by rewrite merge_sort_Permutation.
- apply Sorted_merge_sort, by_id_total.
Qed.

Lemma in_sync_elim u l d :
in_sync u l d →
l ≡ₚ filter (λ t, user_id t = payload_id u) (tasks d) ∧ Sorted by_id l.
Proof.
unfold in_sync, listTasks. simpl. intros [= <-]. split.
- apply merge_sort_Permutation.
- apply Sorted_merge_sort, by_id_total.
Qed.

(** The listing does not depend on the log. *)
Lemma in_sync_tasks u l d d' :
tasks d' = tasks d → in_sync u l d → in_sync u l d'.
Proof. unfold in_sync, listTasks. simpl. by intros ->. Qed.

(** After a DELETE answered 204. *)
Lemma in_sync_deleted u i l d :
keyed d → in_sync u l d →
in_sync u (filter (λ t, id t ≠ i) l) (deleteTask u i d).2.
Proof.
intros Hk [Hp Hs]%in_sync_elim.
assert (tasks (deleteTask u i d).2
        = filter (λ x, ¬ owned_row i (payload_id u) x) (tasks d)) as Ht.
{ unfold deleteTask. by destruct (bool_decide _). }
apply in_sync_intro.
- by apply deleteTask_keyed.
- rewrite Ht, Hp. clear. induction (tasks d) as [|t T IH]; [done|].
  rewrite !filter_cons.
  destruct (decide (user_id t = payload_id u)) as [Hu|Hu];
    destruct (decide (¬ owned_row i (payload_id u) t)) as [Hn|Ho];
    rewrite ?filter_cons.
  + rewrite decide_True, decide_True, IH; [done..|].
    intros Hi. by apply Hn.
  + rewrite decide_False, IH; [done|]. intros Hi. apply Ho. by intros [].
  + by rewrite decide_False, IH.
  + done.
- by apply Sorted_by_id_filter.
Qed.

(** After a POST answered 201 with [row]. *)
Lemma in_sync_created u l d row d' :
keyed d → keyed d' → in_sync u l d →
tasks d' = tasks d ++ [row] → id row = tasks_id_seq d →
user_id row = payload_id u →
in_sync u (l ++ [row]) d'.
Proof.
intros Hk Hk' [Hp Hs]%in_sync_elim Ht Hi Hu.
apply in_sync_intro; [done| |].
- rewrite Ht, filter_app, filter_cons_True, filter_nil by done.
  by rewrite Hp.
- apply Sorted_snoc; [done|].
  destruct Hk as [_ Hd].
  assert (∀ t, t ∈ l → by_id t row) as Hle.
  { intros t Hin. rewrite Hp in Hin.
    apply list_elem_of_filter in Hin as [_ Hin].
    specialize (Hd t Hin). unfold by_id. lia. }
  clear -Hle. destruct l as [|x l _] using rev_ind; [constructor|].
  constructor. apply Hle. apply elem_of_app. right. left.
Qed.

(** After a PUT answered 200 with [row]. *)
Lemma in_sync_updated u l d i g :
keyed d → in_sync u l d →
(∀ t, id (g t) = id t ∧ user_id (g t) = user_id t) →
∀ t0, t0 ∈ tasks d → owned_row i (payload_id u) t0 →
∀ d', tasks d' = (λ t, if decide (owned_row i (payload_id u) t)
                       then g t else t) <$> tasks d →
      tasks_id_seq d' = tasks_id_seq d →
in_sync u (Client.replace_task i (g t0) l) d'.
Proof.
intros Hk [Hp Hs]%in_sync_elim Hg t0 Hin0 Ho0 d' Ht Hq.
assert (∀ t, t ∈ tasks d → id t = i → t = t0) as Huniq.
{ intros t Hin Hi. destruct Hk as [Hu _]. destruct Ho0 as [Hi0 _].
  apply (unique_id_eq (tasks d)); [done..|congruence]. }
apply in_sync_intro.
- destruct Hk as [Hu Hd]. split.
  + unfold ids_unique in *. rewrite Ht, <- list_fmap_compose.
    rewrite (list_fmap_ext _ id (tasks d)); [done|].
    intros k t _. simpl. destruct (decide _); [apply Hg|done].
  + intros t'. rewrite Ht, Hq. intros (t & -> & Hin)%list_elem_of_fmap.
    destruct (decide _); [|by apply Hd].
    destruct (Hg t) as [-> _]. by apply Hd.
- unfold Client.replace_task. rewrite Hp, Ht. clear Hp Hs Ht.
  assert (∀ T, (∀ t, t ∈ T → t ∈ tasks d) →
    (λ t, if decide (id t = i) then g t0 else t)
      <$> filter (λ t, user_id t = payload_id u) T
    = filter (λ t, user_id t = payload_id u)
        ((λ t, if decide (owned_row i (payload_id u) t) then g t else t)
           <$> T)) as ->; [|done..].
  induction T as [|t T IH]; intros Hsub; [done|].
  rewrite fmap_cons, !filter_cons.
  assert (t ∈ tasks d) as Hin by (apply Hsub; left).
  rewrite <- IH by (intros x Hx; apply Hsub; by right).
  destruct (decide (owned_row i (payload_id u) t)) as [[Hi Hu]|Hn].
  + destruct (Hg t) as [_ Hgu].
    rewrite !decide_True, fmap_cons, decide_True by congruence.
    by rewrite (Huniq t Hin Hi).
  + destruct (decide (user_id t = payload_id u)) as [Hu|Hu]; [|done].
    rewrite fmap_cons, decide_False; [done|]. intros Hi. by apply Hn.
- unfold Client.replace_task.
  apply (Sorted_fmap _ by_id by_id); [|done].
  intros x y. unfold by_id. destruct Ho0 as [Hi0 _].
  destruct (Hg t0) as [Hgi _].
  destruct (decide (id x = i)), (decide (id y = i)); lia.
Qed.

End InSync.

(** ** The handlers of the board *)

Section Board.
Import Server Spec View.
Variable jwt_verify : jsstring → option jwt_payload.
Variable Date_getTime : jsval → option Z.
Variable pg_text : jsval → jsstring.
Variable pg_timestamp : jsval → option Z.
Variable toISOString : Z → jsstring.

Implicit Types (d : db) (u : jwt_payload) (tasks : list task).

Local Abbreviation handleDeleteTask := (Client.handleDeleteTask jwt_verify).
Local Abbreviation handleDrop :=
(Client.handleDrop jwt_verify Date_getTime pg_text toISOString).
Local Abbreviation handleTaskSubmit :=
(Client.handleTaskSubmit jwt_verify Date_getTime pg_text pg_timestamp).

(** [apiCall] throws on what the middleware answers. *)
Lemma apiCall_refused authorization resp :
authenticateToken jwt_verify authorization = inl resp →
Client.apiCall (Sent resp) = None.
Proof.
unfold authenticateToken. destruct (bearer_token _); [|by intros [= <-]].
destruct (jwt_verify _); [done|]. by intros [= <-].
Qed.

(** The [tasks] state after a PUT, as both handlers that send one set it. *)
Lemma put_in_sync u now i b tasks d :
keyed d → in_sync u tasks d →
in_sync u
  match Client.apiCall (updateTask Date_getTime pg_text u now i b d).1 with
  | Some (Row result) => Client.replace_task i result tasks
  | _ => tasks
  end
  (updateTask Date_getTime pg_text u now i b d).2.
Proof.
intros Hk Hs.
destruct (validate Date_getTime b) as [msg| |trimmed due reminder] eqn:Hv.
- unfold updateTask. by rewrite Hv.
- unfold updateTask. by rewrite Hv.
- destruct (updateTask_accepted Date_getTime pg_text u now i b d _ _ _ Hv)
    as (de & st & pr & _ & _ & _ & ->).
  destruct (filter _ (Server.tasks d)) as [|t0 rest] eqn:E; simpl.
  + by apply (in_sync_tasks u tasks d).
  + apply filter_owned_head in E as [Hin Ho].
    by apply (in_sync_updated u tasks d i
                (write_task trimmed de st due reminder pr now) Hk Hs).
Qed.

(** The state the initial fetch sets is the answer of GET /api/tasks. *)
Lemma fetchTasks_in_sync token u d :
authenticateToken jwt_verify (Client.Authorization token) = inr u →
∃ fetchedTasks,
  (Client.fetchTasks jwt_verify token d).1 = Some fetchedTasks
  ∧ in_sync u fetchedTasks (Client.fetchTasks jwt_verify token d).2.
Proof.
intros Ha. unfold Client.fetchTasks, GET_tasks, protected. rewrite Ha.
simpl. eexists. split; [done|]. by apply (in_sync_tasks u _ d).
Qed.

(** X17: deleting from the board keeps the board true to the store: when
  the [tasks] state is what GET /api/tasks answers, it still is after
  [handleDeleteTask], whether the user confirmed or not and whether the
  DELETE was answered 204 or 404. *)
Theorem handleDeleteTask_in_sync token u confirmed taskId tasks d :
authenticateToken jwt_verify (Client.Authorization token) = inr u →
keyed d → in_sync u tasks d →
in_sync u (handleDeleteTask token confirmed taskId tasks d).1
  (handleDeleteTask token confirmed taskId tasks d).2.
Proof.
intros Ha Hk Hs. unfold handleDeleteTask, Client.handleDeleteTask.
destruct confirmed; [|done].
unfold DELETE_task, protected. rewrite Ha.
destruct (filter (owned_row taskId (payload_id u)) (Server.tasks d))
  as [|t0 rest] eqn:E.
- rewrite (deleteTask_not_owned u taskId d E). simpl.
  by apply (in_sync_tasks u tasks d).
- pose proof (in_sync_deleted u taskId tasks d Hk Hs) as Hd.
  unfold deleteTask in *. simpl in *. rewrite E in *. simpl in *. done.
Qed.

(** X18: dropping a card keeps the board true to the store: when the
  [tasks] state is what GET /api/tasks answers, it still is after
  [handleDrop], whatever task is dragged onto whatever column and
  whatever the PUT is answered. *)
Theorem handleDrop_in_sync token u now draggedTask newStatus tasks d :
authenticateToken jwt_verify (Client.Authorization token) = inr u →
keyed d → in_sync u tasks d →
in_sync u (handleDrop token now draggedTask newStatus tasks d).1
  (handleDrop token now draggedTask newStatus tasks d).2.
Proof.
intros Ha Hk Hs. unfold handleDrop, Client.handleDrop.
destruct draggedTask as [dragged|]; [|done].
destruct (bool_decide _); [done|].
unfold PUT_task, protected. rewrite Ha.
pose proof (put_in_sync u now (id dragged)
              (Client.with_status newStatus
                 (Client.body_of_task toISOString dragged)) tasks d Hk Hs)
  as Hp.
destruct (updateTask _ _ _ _ _ _ _) as [o d']. simpl in *.
destruct (Client.apiCall o) as [[]|]; done.
Qed.

(** X19: submitting the form keeps the board true to the store, for a new
  task (appended to the state) as for an edited one (replaced in it),
  and whatever the request is answered. *)
Theorem handleTaskSubmit_in_sync token u now f editingTask tasks d :
authenticateToken jwt_verify (Client.Authorization token) = inr u →
keyed d → in_sync u tasks d →
in_sync u (handleTaskSubmit token now f editingTask tasks d).1
  (handleTaskSubmit token now f editingTask tasks d).2.
Proof.
intros Ha Hk Hs. unfold handleTaskSubmit, Client.handleTaskSubmit.
destruct (negb _); [done|].
destruct editingTask as [editing|].
- unfold PUT_task, protected. rewrite Ha.
  pose proof (put_in_sync u now (id editing)
                (Client.taskData f (JStr (status editing))) tasks d Hk Hs)
    as Hp.
  destruct (updateTask _ _ _ _ _ _ _) as [o d']. simpl in *.
  destruct (Client.apiCall o) as [[]|]; done.
- unfold POST_tasks, protected. rewrite Ha.
  pose proof (createTask_keyed pg_text pg_timestamp u now
                (Client.taskData f JUndef) d Hk) as Hk'.
  unfold createTask, insert_task in *.
  destruct (bind_timestamp _ _) as [due|];
    [|by apply (in_sync_tasks u tasks d)].
  destruct (bind_timestamp _ _) as [reminder|];
    [|by apply (in_sync_tasks u tasks d)].
  destruct (text_columns _ _ _ _) as [[[[ti de] st] pr]|]; simpl in *.
  + by apply (in_sync_created u tasks d _ _ Hk Hk' Hs).
  + by apply (in_sync_tasks u tasks d).
Qed.

(** The body of a drop passes the validation when the title of the task is
  not blank, its priority is one of the three and its dates are read
  back from their writing. *)
Lemma drop_body_accepted dragged newStatus :
trim (title dragged) ≠ [] →
newStatus ∈ statuses → priority dragged ∈ priorities →
(∀ x, due_date dragged = Some x ∨ reminder_date dragged = Some x →
      toISOString x ≠ [] ∧ Date_getTime (JStr (toISOString x)) = Some x) →
validate Date_getTime
  (Client.with_status newStatus (Client.body_of_task toISOString dragged))
= Accepted (trim (title dragged)) (due_date dragged) (reminder_date dragged).
Proof.
intros Ht Hs Hp Hiso.
assert (∀ c, (∀ x, c = Some x →
                toISOString x ≠ []
                ∧ Date_getTime (JStr (toISOString x)) = Some x) →
             parse_date Date_getTime (Client.json_date toISOString c)
             = Some c) as Hdate.
{ intros [x|] Hx; [|done]. destruct (Hx x eq_refl) as [Hne Hrt].
  unfold parse_date, Client.json_date. simpl truthy.
  rewrite bool_decide_eq_false_2 by done. simpl. by rewrite Hrt. }
assert (well_formed Date_getTime
          (Client.with_status newStatus
             (Client.body_of_task toISOString dragged))) as Hwf.
{ split_and!; simpl.
  - by exists (title dragged).
  - by exists newStatus.
  - intros _. by exists (priority dragged).
  - unfold date_ok, present.
    destruct (due_date dragged) as [x|] eqn:Hx; [|done].
    intros _. simpl. destruct (Hiso x) as [_ Hrt]; [eauto|].
    rewrite Hrt. eauto.
  - unfold date_ok, present.
    destruct (reminder_date dragged) as [x|] eqn:Hx; [|done].
    intros _. simpl. destruct (Hiso x) as [_ Hrt]; [eauto|].
    rewrite Hrt. eauto. }
destruct (validate_well_formed _ _ Hwf) as (s & due & reminder & Hs' & Hv).
destruct (validate_accepted _ _ _ _ _ Hv) as (_ & _ & _ & Hd & Hr).
simpl in Hs', Hd, Hr. injection Hs' as <-.
rewrite Hdate in Hd by (intros x Hx; apply Hiso; eauto).
rewrite Hdate in Hr by (intros x Hx; apply Hiso; eauto).
injection Hd as <-. injection Hr as <-. done.
Qed.

(** X20: a drop changes the column and nothing else: for a task of the
  user whose title is not blank and whose priority is one of the three,
  dropped on another column, the PUT is answered with the task as it
  was but for the new status, the trimmed title and the update time,
  and that row replaces the task in the [tasks] state; the description,
  the priority, both dates, the reminder-sent flag and the creation time
  are kept. *)
Theorem handleDrop_moves_only token u now dragged newStatus tasks d :
authenticateToken jwt_verify (Client.Authorization token) = inr u →
keyed d → dragged ∈ Server.tasks d → user_id dragged = payload_id u →
status dragged ≠ newStatus → newStatus ∈ statuses →
trim (title dragged) ≠ [] → priority dragged ∈ priorities →
(∀ x, due_date dragged = Some x ∨ reminder_date dragged = Some x →
      toISOString x ≠ [] ∧ Date_getTime (JStr (toISOString x)) = Some x) →
∃ moved,
  (handleDrop token now (Some dragged) newStatus tasks d).1
  = Client.replace_task (id dragged) moved tasks
  ∧ moved ∈ Server.tasks (handleDrop token now (Some dragged) newStatus tasks d).2
  ∧ status moved = newStatus ∧ title moved = trim (title dragged)
  ∧ updated_at moved = now
  ∧ id moved = id dragged ∧ user_id moved = user_id dragged
  ∧ description moved = description dragged
  ∧ priority moved = priority dragged
  ∧ due_date moved = due_date dragged
  ∧ reminder_date moved = reminder_date dragged
  ∧ is_reminder_sent moved = is_reminder_sent dragged
  ∧ created_at moved = created_at dragged.
Proof.
intros Ha Hk Hin Hu Hne Hs Ht Hp Hiso.
pose proof (drop_body_accepted dragged newStatus Ht Hs Hp Hiso) as Hv.
destruct (updateTask_accepted Date_getTime pg_text u now (id dragged)
            _ d _ _ _ Hv) as (de & st & pr & Hde & Hst & Hpr & Hupd).
assert (owned_row (id dragged) (payload_id u) dragged) as Ho by done.
destruct (owned_filter_cons _ _ _ _ Hin Ho) as (t0 & rest & E).
rewrite E in Hupd. apply filter_owned_head in E as [Hin0 [Hi0 Hu0]].
assert (t0 = dragged) as ->.
{ destruct Hk as [Hnd _]. by apply (unique_id_eq (Server.tasks d)). }
simpl in Hde, Hst, Hpr. injection Hst as <-.
assert (de = description dragged) as ->.
{ unfold js_or in Hde. simpl in Hde.
  destruct (bool_decide (description dragged = [])) eqn:Hd; simpl in Hde.
  - apply bool_decide_eq_true in Hd. rewrite Hd. by injection Hde.
  - by injection Hde. }
assert (pr = priority dragged) as ->.
{ unfold js_or in Hpr. simpl in Hpr.
  destruct (bool_decide (priority dragged = [])) eqn:Hd; simpl in Hpr.
  - apply bool_decide_eq_true in Hd. rewrite Hd in Hp.
    apply list_elem_of_In in Hp. vm_compute in Hp. intuition discriminate.
  - by injection Hpr. }
unfold handleDrop, Client.handleDrop.
rewrite bool_decide_eq_false_2 by done.
unfold PUT_task, protected. rewrite Ha, Hupd. simpl.
eexists. split_and!; try done.
apply list_elem_of_fmap. exists dragged. by rewrite decide_True.
Qed.

(** The body of a drop does not pass the validation when the title of the
  task is blank or its priority is set and none of the three. *)
Lemma drop_body_rejected dragged newStatus :
trim (title dragged) = []
∨ (priority dragged ≠ [] ∧ priority dragged ∉ priorities) →
∃ msg,
  validate Date_getTime
    (Client.with_status newStatus (Client.body_of_task toISOString dragged))
  = Rejected msg.
Proof.
intros H. unfold validate. simpl b_title. simpl b_status. simpl b_priority.
destruct (negb (truthy (JStr (title dragged)))); [by eauto|].
change (call_trim (JStr (title dragged))) with (Some (trim (title dragged))).
cbv beta iota.
destruct (negb (truthy (JStr (trim (title dragged))))) eqn:Ht; [by eauto|].
destruct (negb (truthy (JStr newStatus)) || _); [by eauto|].
destruct H as [Hb|[Hne Hp]].
- rewrite Hb in Ht. done.
- rewrite priority_test_fails; [by eauto| |].
  + unfold present. simpl. by rewrite bool_decide_eq_false_2.
  + intros (s & [= <-] & Hin). done.
Qed.

(** X21: a task that the update route refuses cannot be moved: when its
  title is blank, or its priority is set and none of the three (both
  can be stored by the create route), a drop on any column leaves the
  [tasks] state and the tables as they are. *)
Theorem handleDrop_stuck token now dragged newStatus tasks d :
trim (title dragged) = []
∨ (priority dragged ≠ [] ∧ priority dragged ∉ priorities) →
(handleDrop token now (Some dragged) newStatus tasks d).1 = tasks
∧ Server.tasks (handleDrop token now (Some dragged) newStatus tasks d).2
  = Server.tasks d.
Proof.
intros H. unfold handleDrop, Client.handleDrop.
destruct (bool_decide _); [done|].
unfold PUT_task, protected.
destruct (authenticateToken _ _) as [resp|u] eqn:Ha.
{ by rewrite (apiCall_refused _ _ Ha). }
destruct (drop_body_rejected dragged newStatus H) as [msg Hm].
unfold updateTask. by rewrite Hm.
Qed.

(** X22: through the form no blank title is stored: every row that
  [handleTaskSubmit] adds to the table or rewrites in it has a title
  that is not blank once trimmed. *)
Theorem handleTaskSubmit_titles token now f editingTask tasks d t :
t ∈ Server.tasks (handleTaskSubmit token now f editingTask tasks d).2 →
t ∈ Server.tasks d ∨ trim (title t) ≠ [].
Proof.
unfold handleTaskSubmit, Client.handleTaskSubmit.
destruct (negb (truthy (JStr (trim (Client.f_title f))))) eqn:Hb;
  [by left|].
assert (trim (Client.f_title f) ≠ []) as Hne.
{ intros E. rewrite E in Hb. done. }
destruct editingTask as [editing|].
- unfold PUT_task, protected.
  destruct (authenticateToken _ _) as [resp|u] eqn:Ha.
  { rewrite (apiCall_refused _ _ Ha). by left. }
  destruct (validate Date_getTime
              (Client.taskData f (JStr (status editing))))
    as [msg| |trimmed due reminder] eqn:Hv.
  + unfold updateTask. rewrite Hv. by left.
  + unfold updateTask. rewrite Hv. by left.
  + destruct (updateTask_accepted Date_getTime pg_text u now (id editing)
                _ d _ _ _ Hv) as (de & st & pr & _ & _ & _ & Hupd).
    destruct (validate_accepted _ _ _ _ _ Hv)
      as (_ & (s & Hs & ->) & Hnb & _).
    rewrite Hupd. destruct (filter _ (Server.tasks d)); simpl; [by left|].
    intros (x & -> & Hx)%list_elem_of_fmap.
    destruct (decide _); [|by left]. right. simpl. by rewrite trim_trim.
- unfold POST_tasks, protected.
  destruct (authenticateToken _ _) as [resp|u] eqn:Ha.
  { rewrite (apiCall_refused _ _ Ha). by left. }
  unfold createTask, insert_task.
  destruct (bind_timestamp _ _) as [due|]; [|by left].
  destruct (bind_timestamp _ _) as [reminder|]; [|by left].
  destruct (text_columns _ _ _ _) as [[[[ti de] st] pr]|] eqn:E; simpl;
    [|by left].
  intros [Hin|Hin%list_elem_of_singleton]%elem_of_app; [by left|].
  right. subst t. simpl.
  unfold text_columns in E. simpl in E.
  destruct (bind_text pg_text (js_or (JStr (Client.f_description f)) _));
    simpl in E; [|done].
  destruct (bind_text pg_text (js_or (JStr (Client.f_priority f)) _));
    simpl in E; [|done].
  by injection E as <- _ _ _.
Qed.

End Board.

Lemma store_keyed : Spec.keyed Sample.store.
Proof.
  split.
  - unfold Spec.ids_unique. simpl. apply NoDup_singleton.
  - intros t Hin%list_elem_of_In. simpl in Hin. destruct Hin as [<-|[]].
    simpl. lia.
Qed.

(** Alice deletes her only task and her board is empty, as her list is. *)
Lemma handleDeleteTask_in_sync_witness :
  View.in_sync Sample.alice []
    (Client.handleDeleteTask Sample.jwt_verify (js "alice-token") true 1
       [Sample.alice_task] Sample.store).2.
Proof.
  apply (handleDeleteTask_in_sync Sample.jwt_verify (js "alice-token")
           Sample.alice true 1 [Sample.alice_task] Sample.store).
  - reflexivity.
  - apply store_keyed.
  - reflexivity.
Defined.

(** Alice drops her task on the done column. *)
Lemma handleDrop_in_sync_witness :
  View.in_sync Sample.alice
    (Client.handleDrop Sample.jwt_verify Demo.Date_getTime Sample.pg_text
       Demo.toISOString (js "alice-token") 300 (Some Sample.alice_task)
       (js "done") [Sample.alice_task] Sample.store).1
    (Client.handleDrop Sample.jwt_verify Demo.Date_getTime Sample.pg_text
       Demo.toISOString (js "alice-token") 300 (Some Sample.alice_task)
       (js "done") [Sample.alice_task] Sample.store).2.
Proof.
  apply (handleDrop_in_sync Sample.jwt_verify Demo.Date_getTime
           Sample.pg_text Demo.toISOString (js "alice-token") Sample.alice).
  - reflexivity.
  - apply store_keyed.
  - reflexivity.
Defined.

(** Alice submits the form for a new task. *)
Lemma handleTaskSubmit_in_sync_witness :
  View.in_sync Sample.alice
    (Client.handleTaskSubmit Sample.jwt_verify Sample.Date_getTime
       Sample.pg_text Sample.pg_timestamp (js "alice-token") 300 Demo.form
       None [Sample.alice_task] Sample.store).1
    (Client.handleTaskSubmit Sample.jwt_verify Sample.Date_getTime
       Sample.pg_text Sample.pg_timestamp (js "alice-token") 300 Demo.form
       None [Sample.alice_task] Sample.store).2.
Proof.
  apply (handleTaskSubmit_in_sync Sample.jwt_verify Sample.Date_getTime
           Sample.pg_text Sample.pg_timestamp (js "alice-token") Sample.alice).
  - reflexivity.
  - apply store_keyed.
  - reflexivity.
Defined.

(** Alice's task, due at 5000 with a reminder at 4000, high priority,
    described, moves to done and keeps all of it. *)
Lemma handleDrop_moves_only_witness :
  ∃ moved,
    (Client.handleDrop Sample.jwt_verify Demo.Date_getTime Sample.pg_text
       Demo.toISOString (js "alice-token") 300 (Some Sample.alice_task)
       (js "done") [Sample.alice_task] Sample.store).1 = [moved]
    ∧ Server.status moved = js "done"
    ∧ Server.description moved = js "first draft"
    ∧ Server.priority moved = js "high"
    ∧ Server.due_date moved = Some 5000
    ∧ Server.reminder_date moved = Some 4000
    ∧ Server.updated_at moved = 300.
Proof.
  destruct (handleDrop_moves_only Sample.jwt_verify Demo.Date_getTime
              Sample.pg_text Demo.toISOString (js "alice-token") Sample.alice
              300 Sample.alice_task (js "done") [Sample.alice_task]
              Sample.store)
    as (moved & Hm & _ & Hst & _ & Hup & _ & _ & Hde & Hpr & Hdu & Hre & _).
  - reflexivity.
  - apply store_keyed.
  - left.
  - reflexivity.
  - vm_compute. discriminate.
  - by repeat constructor.
  - vm_compute. discriminate.
  - by repeat constructor.
  - intros x [[= <-]|[= <-]]; split; try reflexivity; vm_compute; discriminate.
  - exists moved. by split_and!.
Defined.

(** The task with a title of spaces stays in its column. *)
Lemma handleDrop_stuck_witness :
  (Client.handleDrop Sample.jwt_verify Sample.Date_getTime Sample.pg_text
     Demo.toISOString (js "alice-token") 300 (Some Demo.blank_task)
     (js "done") [Demo.blank_task] Sample.store).1 = [Demo.blank_task].
Proof.
  apply (handleDrop_stuck Sample.jwt_verify Sample.Date_getTime
           Sample.pg_text Demo.toISOString).
  left. reflexivity.
Defined.

(** The task alice adds through the form has a title. *)
Lemma handleTaskSubmit_titles_witness :
  Forall (λ t, t ∈ Server.tasks Sample.store ∨ trim (Server.title t) ≠ [])
    (Server.tasks
       (Client.handleTaskSubmit Sample.jwt_verify Sample.Date_getTime
          Sample.pg_text Sample.pg_timestamp (js "alice-token") 300
          Demo.form None [Sample.alice_task] Sample.store).2).
Proof.
  apply Forall_forall. intros t.
  apply (handleTaskSubmit_titles Sample.jwt_verify Sample.Date_getTime
           Sample.pg_text Sample.pg_timestamp).
Defined.

(** ** Notifications and columns *)

Set Warnings "-clear-no-such-hyp".

Section Evaluator.
Import Server Spec View.

Implicit Types (task : Server.task) (ns : list App.notification).

(** One pass over one task, by cases on what the handler tests. *)
Ltac pushed_cases task :=
unfold App.pushed, App.isOverdue, App.isDueSoon, reminder_row,
  due_soon_row, at_most, hours24;
destruct (reminder_date task) as [?r|], (due_date task) as [?due|],
  (is_reminder_sent task);
simpl; repeat case_bool_decide; simpl.

(** X23: the client notifies a reminder for a task exactly when the
  reminders query of the backend would return the task to its owner at
  the same instant. *)
Theorem reminder_notified_iff_listed now task :
App.reminder ∈ App.type <$> App.pushed now task
↔ reminder_row (user_id task) now task.
Proof.
pushed_cases task;
  rewrite ?elem_of_cons, ?elem_of_nil; naive_solver lia.
Qed.

(** X24: the due-soon query of the backend returns a task to its owner
  exactly when the client notifies it as overdue or as due soon, or its
  due date is this very instant: the client's two tests leave out a due
  date equal to now, which the query includes. *)
Theorem due_soon_query_vs_notifications now task :
due_soon_row (user_id task) now task
↔ App.overdue ∈ App.type <$> App.pushed now task
  ∨ App.due_soon ∈ App.type <$> App.pushed now task
  ∨ (due_date task = Some now ∧ status task ≠ js "done").
Proof.
pushed_cases task;
  rewrite ?elem_of_cons, ?elem_of_nil, ?(inj_iff Some); naive_solver lia.
Qed.

(** X25: one pass notifies a task at most once per category and never as
  both overdue and due soon, under the identifier of the task; a task
  that is done is not notified at all. *)
Theorem pushed_per_task now task :
(length (App.pushed now task) ≤ 2)%nat
∧ NoDup (App.type <$> App.pushed now task)
∧ ¬ (App.overdue ∈ App.type <$> App.pushed now task
     ∧ App.due_soon ∈ App.type <$> App.pushed now task)
∧ (∀ n, n ∈ App.pushed now task → App.id n = id task)
∧ (status task = js "done" → App.pushed now task = []).
Proof.
split_and!.
- pushed_cases task; lia.
- pushed_cases task; repeat constructor;
    rewrite ?elem_of_cons, ?elem_of_nil; naive_solver.
- pushed_cases task; rewrite ?elem_of_cons, ?elem_of_nil; naive_solver.
- intros n. pushed_cases task;
    rewrite ?elem_of_cons, ?elem_of_nil; naive_solver.
- intros Hs. pushed_cases task; done.
Qed.

(** X26: the notifications are not deduplicated: every pass appends what
  it finds to what is there, so [k] passes over the same tasks at the
  same instant leave [k] copies. *)
Theorem checkReminders_accumulates now (tasks : list Server.task) ns k :
Nat.iter k (App.checkReminders now tasks) ns
= ns ++ mjoin (replicate k (App.checkReminders now tasks [])).
Proof.
assert (∀ l, App.checkReminders now tasks l
             = l ++ App.checkReminders now tasks []) as Hone.
{ intros l. unfold App.checkReminders.
  destruct (tasks ≫= App.pushed now) as [|n new]; simpl.
  - by rewrite app_nil_r.
  - done. }
induction k as [|k IH]; simpl.
- by rewrite app_nil_r.
- rewrite IH, Hone, <- app_assoc. f_equal.
  clear. induction k as [|k IH]; simpl.
  + by rewrite app_nil_r.
  + by rewrite <- app_assoc, IH.
Qed.

(** X27: a dismissed notification comes back: whatever was dismissed, the
  next pass notifies again everything that a pass over the tasks finds. *)
Theorem dismissed_reappears now (tasks : list Server.task) ns n :
n ∈ App.checkReminders now tasks [] →
(n ∉ App.dismissNotification (App.id n) ns)
∧ n ∈ App.checkReminders now tasks (App.dismissNotification (App.id n) ns).
Proof.
intros Hin. split.
- intros [_ Hne]%dismissNotification_elem. done.
- unfold App.checkReminders in *.
  destruct (tasks ≫= App.pushed now) as [|m new]; simpl in *.
  + by apply elem_of_nil in Hin.
  + apply elem_of_app. by right.
Qed.

(** X28: the three columns share out the board: when every task has one
  of the three statuses, which the routes maintain, each task of the
  [tasks] state is in exactly one column. *)
Theorem columns_partition (tasks : list Server.task) :
(∀ t, t ∈ tasks → status t ∈ statuses) →
Client.todoTasks tasks ++ Client.inProgressTasks tasks
  ++ Client.doneTasks tasks ≡ₚ tasks.
Proof.
unfold Client.todoTasks, Client.inProgressTasks, Client.doneTasks,
  Client.column.
induction tasks as [|t tasks IH]; intros Hv; [done|].
rewrite !filter_cons.
assert (status t ∈ statuses) as Hs by (apply Hv; left).
specialize (IH (λ x Hx, Hv x (list_elem_of_further _ _ _ Hx))).
unfold statuses in Hs.
apply elem_of_cons in Hs as [Hs|Hs]; [|apply elem_of_cons in Hs as [Hs|Hs];
  [|apply list_elem_of_singleton in Hs]]; rewrite Hs.
- rewrite decide_True, !decide_False by (done || vm_compute; discriminate).
  simpl. by rewrite IH.
- rewrite decide_False, decide_True, decide_False
    by (done || vm_compute; discriminate).
  simpl. rewrite <- Permutation_middle. by rewrite IH.
- rewrite !decide_False, decide_True by (done || vm_compute; discriminate).
  rewrite app_assoc, <- Permutation_middle, <- app_assoc. by rewrite IH.
Qed.

End Evaluator.

(** Alice dismisses the reminder of her task and the next pass brings it
    back. *)
Lemma dismissed_reappears_witness :
  {| App.id := 1; App.message := js "Rappel: Write spec";
     App.type := App.reminder |}
  ∈ App.checkReminders 6000 [Sample.alice_task]
      (App.dismissNotification 1
         (App.checkReminders 6000 [Sample.alice_task] [])).
Proof.
  apply (dismissed_reappears 6000 [Sample.alice_task]
           (App.checkReminders 6000 [Sample.alice_task] [])
           {| App.id := 1; App.message := js "Rappel: Write spec";
              App.type := App.reminder |}).
  left.
Defined.

(** Alice's two tasks, one todo and one in progress, fill the board. *)
Lemma columns_partition_witness :
  Client.todoTasks [Sample.alice_task; Demo.second_task]
  ++ Client.inProgressTasks [Sample.alice_task; Demo.second_task]
  ++ Client.doneTasks [Sample.alice_task; Demo.second_task]
  ≡ₚ [Sample.alice_task; Demo.second_task].
Proof.
  apply (columns_partition [Sample.alice_task; Demo.second_task]).
  intros t Hin%list_elem_of_In. simpl in Hin.
  destruct Hin as [<-|[<-|[]]]; by repeat constructor.
Defined.

(** ** More of [trim] and of the list of tasks *)

Section TrimAndList.
Import Server Spec View.

Lemma trimStart_split (s : jsstring) :
∃ a, s = a ++ trimStart s ∧ Forall (λ c, is_ws c = true) a.
Proof.
induction s as [|c s (a & Hs & Ha)]; [by exists []|]. simpl.
destruct (is_ws c) eqn:Hc.
- exists (c :: a). split; [by rewrite Hs at 1|by constructor].
- by exists [].
Qed.

Lemma trimEnd_split (s : jsstring) :
∃ b, s = trimEnd s ++ b ∧ Forall (λ c, is_ws c = true) b
     ∧ ∀ c, last (trimEnd s) = Some c → is_ws c = false.
Proof.
induction s as [|c s (b & Hs & Hb & Hl)]; [by exists []|]. simpl.
destruct (trimEnd s) as [|x t] eqn:E.
- simpl in Hs. subst b. destruct (is_ws c) eqn:Hc.
  + exists (c :: s). split_and!; [done|by constructor|done].
  + exists s. split_and!; [done|done|]. by intros ? [= <-].
- exists b. split_and!; [by rewrite Hs at 1|done|]. apply Hl.
Qed.

(** X29: [trim] removes the white space at both ends and nothing else:
  the string is white space, then its trim, then white space, and the
  trim neither begins nor ends with white space; so the trim is empty
  exactly when the string is white space throughout. *)
Theorem trim_spec (s : jsstring) :
(∃ a b, s = a ++ trim s ++ b
        ∧ Forall (λ c, is_ws c = true) a
        ∧ Forall (λ c, is_ws c = true) b)
∧ (∀ c, head (trim s) = Some c → is_ws c = false)
∧ (∀ c, last (trim s) = Some c → is_ws c = false)
∧ (trim s = [] ↔ Forall (λ c, is_ws c = true) s).
Proof.
unfold trim.
destruct (trimStart_split s) as (a & Hs & Ha).
destruct (trimEnd_split (trimStart s)) as (b & Hr & Hb & Hl).
assert (∀ c, head (trimEnd (trimStart s)) = Some c → is_ws c = false)
  as Hh.
{ destruct (trimStart_head s) as [->|(c & r & -> & Hc)]; [done|].
  destruct (trimEnd_head c r Hc) as [r' ->]. by intros ? [= <-]. }
split_and!; [|done|done|].
- exists a, b. split_and!; [|done|done]. by rewrite <- Hr.
- split.
  + intros E. rewrite E in Hr. simpl in Hr. rewrite Hs, Hr.
    by apply Forall_app.
  + intros Hall. destruct (trimEnd (trimStart s)) as [|c t] eqn:E; [done|].
    specialize (Hh c eq_refl).
    assert (c ∈ s) as Hin.
    { rewrite Hs, Hr. apply elem_of_app. right. left. }
    rewrite Forall_forall in Hall. specialize (Hall c Hin). congruence.
Qed.

(** X30: GET /api/tasks answers the tasks of the caller, each once, by
  strictly ascending identifier, the identifiers being unique. *)
Theorem listTasks_ascending u d :
keyed d →
∃ rows,
  listTasks u d = (json 200 (Rows rows), logged QSelectTasks d)
  ∧ rows ≡ₚ filter (λ t, user_id t = payload_id u) (tasks d)
  ∧ StronglySorted (λ a b, id a < id b) rows.
Proof.
intros Hk. eexists. split; [reflexivity|]. split.
- apply merge_sort_Permutation.
- simpl.
  assert (NoDup (id <$> merge_sort by_id
                   (filter (λ t, user_id t = payload_id u) (tasks d))))
    as Hnd.
  { rewrite merge_sort_Permutation. by apply user_rows_NoDup. }
  assert (StronglySorted by_id
            (merge_sort by_id
               (filter (λ t, user_id t = payload_id u) (tasks d)))) as Hs.
  { apply (@Sorted_StronglySorted _ by_id by_id_trans).
    apply Sorted_merge_sort, by_id_total. }
  revert Hnd Hs. generalize (merge_sort by_id
    (filter (λ t, user_id t = payload_id u) (tasks d))). clear.
  induction l as [|x l IH]; intros Hnd Hs; [constructor|].
  rewrite fmap_cons in Hnd. apply NoDup_cons in Hnd as [Hx Hnd].
  apply StronglySorted_inv in Hs as [Hs Hall].
  constructor; [by apply IH|].
  rewrite Forall_forall in Hall |- *. intros y Hy.
  specialize (Hall y Hy). unfold by_id in Hall.
  assert (id x ≠ id y); [|lia].
  intros E. apply Hx. rewrite E. by apply list_elem_of_fmap_2.
Qed.

End TrimAndList.

Lemma listTasks_ascending_witness :
  ∃ rows,
    Server.listTasks Sample.alice Demo.two_tasks
    = (Server.json 200 (Server.Rows rows),
       Server.logged Server.QSelectTasks Demo.two_tasks)
    ∧ StronglySorted (λ a b, Server.id a < Server.id b) rows.
Proof.
  destruct (listTasks_ascending Sample.alice Demo.two_tasks)
    as (rows & Hl & _ & Hs).
  - split.
    + unfold Spec.ids_unique. simpl. repeat constructor;
        rewrite ?elem_of_cons, ?elem_of_nil; naive_solver.
    + intros t Hin%list_elem_of_In. simpl in Hin.
      destruct Hin as [<-|[<-|[]]]; simpl; lia.
  - by exists rows.
Defined.
